(** * Manifest validation (invoices-processing/validate_manifest.py)

    A shallow embedding of [validate_manifest] and the properties of its
    diagnostics, statistics and verdict.

    Conventions of the embedding.
    - [json.load] yields a list of dicts.  A dict is read only through the
      eleven required keys, so a record is a Rocq record of optional fields:
      [None] is an absent key.  The textual keys hold Python [str], the four
      amounts hold Python [float] (IEEE binary64, Rocq's primitive floats;
      [json.load] reads [1e999] as infinity and accepts the literal [NaN]).
      A JSON number without fraction or exponent is read as a Python [int];
      it is taken as the float of the same value, and so is the [int] default
      [0] of [record.get(k, 0)]: below [2^53] the operations used here, [+],
      [-], [round(_, 2)], [abs] and [>], give the same number for both.
    - The local lists hold f-strings; a diagnostic is kept as the tuple of
      values its f-string interpolates, the text around them being constant.
    - [validate_manifest] is the function without its console output;
      [validate_manifest_io] adds its calls of [print], each kept structured.
    - The one exception the body can raise on such data is the [KeyError] of
      [record['invoice_id']]; a raising run is [Raise], a returning one [Ok].
    - [main] is the block under [if __name__ == '__main__'].  A file that
      exists either holds a JSON array of such records or holds anything else
      (text that is not JSON, a JSON object, an array of other values); on the
      second kind [json.load] or the body may fail in ways that are not
      followed here, and [main] gives [None].  The path operator of [pathlib]
      is a parameter. *)

From Stdlib Require Import ZArith Floats Ascii.
From stdpp Require Import gmap strings list fin_maps sorting pretty.

Set Default Proof Using "Type".
#[local] Set Warnings "-clear-no-such-hyp,-inexact-float".

(** ** Python primitives used by the script *)

Module Py.

(** Exceptions raised by the body. *)
Inductive exn : Set :=
| KeyError (key : string).

Inductive result (A : Type) : Type :=
| Ok (a : A)
| Raise (e : exn).
Global Arguments Ok {A} a.
Global Arguments Raise {A} e.

Global Instance result_ret : MRet result := @Ok.
Global Instance result_bind : MBind result := λ A B k m,
  match m with
  | Ok a => k a
  | Raise e => Raise e
  end.

Definition returns {A} (m : result A) : Prop := ∃ a, m = Ok a.

(** Truth value of a list: [bool(l)]. *)
Definition truthy {A} (l : list A) : bool :=
  match l with
  | [] => false
  | _ :: _ => true
  end.

(** [str(i)] for a non-negative [int]. *)
Definition str (i : nat) : string := pretty i.

(** [s.zfill(width)]: pad with zeros on the left, after a leading sign. *)
Definition zfill (s : string) (width : nat) : string :=
  let fill := String.concat "" (replicate (width - String.length s) "0") in
  if decide (width ≤ String.length s) then s
  else match s with
       | String "+"%char rest => String "+"%char (fill +:+ rest)
       | String "-"%char rest => String "-"%char (fill +:+ rest)
       | _ => fill +:+ s
       end.

(** The integer nearest to [n * 2^e], ties to even. *)
Definition nearest_even_scaled (n e : Z) : Z :=
  match e with
  | Zneg p =>
      let d := Z.pow_pos 2 p in
      let q := (n `div` d)%Z in
      match (2 * (n `mod` d) ?= d)%Z with
      | Lt => q
      | Gt => (q + 1)%Z
      | Eq => if Z.even q then q else (q + 1)%Z
      end
  | _ => (n * 2 ^ e)%Z
  end.

(** [round(x, 2)] on a float: the decimal with two fractional digits that is
    nearest to the exact value of [x] (ties to even), converted back to the
    nearest float; zeros, infinities and NaN round to themselves. *)
Definition round2 (x : float) : float :=
  match Prim2SF x with
  | S754_finite s m e =>
      match nearest_even_scaled (100 * Z.pos m) e with
      | Z.pos n =>
          SF2Prim (SFdiv prec emax (S754_finite s n 0) (S754_finite false 100 0))
      | _ => SF2Prim (S754_zero s)
      end
  | _ => x
  end.

(** The literal [0.01]. *)
Definition tolerance : float := 0x1.47ae147ae147bp-7%float.

End Py.

Export Py.

(** ** Data model *)

(** One element of the manifest array. *)
Record InvoiceRecord : Set := {
  invoice_id : option string;
  vendor : option string;
  currency : option string;
  invoice_date : option string;
  due_date : option string;
  terms : option string;
  subtotal : option float;
  tax : option float;
  shipping : option float;
  total : option float;
  file_path : option string;
}.

Definition present {A} (o : option A) : bool :=
  match o with
  | Some _ => true
  | None => false
  end.

(** [field in record]; keys other than the eleven are never looked up. *)
Definition contains (record : InvoiceRecord) (field : string) : bool :=
  if String.eqb field "invoice_id" then present (invoice_id record)
  else if String.eqb field "vendor" then present (vendor record)
  else if String.eqb field "currency" then present (currency record)
  else if String.eqb field "invoice_date" then present (invoice_date record)
  else if String.eqb field "due_date" then present (due_date record)
  else if String.eqb field "terms" then present (terms record)
  else if String.eqb field "subtotal" then present (subtotal record)
  else if String.eqb field "tax" then present (tax record)
  else if String.eqb field "shipping" then present (shipping record)
  else if String.eqb field "total" then present (total record)
  else if String.eqb field "file_path" then present (file_path record)
  else false.

(** [f'{inv_id}: Expected {calculated_total}, got {recorded_total}
    (subtotal:{subtotal} + tax:{tax} + shipping:{shipping})'] *)
Record MathError : Set := {
  err_inv_id : string;
  err_calculated_total : float;
  err_recorded_total : float;
  err_subtotal : float;
  err_tax : float;
  err_shipping : float;
}.

(** The local variables that the per-record loop updates. *)
Record Checks : Type := {
  invoice_ids : gset string;
  missing_fields : list (nat * string);   (* f'Record {i}: missing field {field}' *)
  math_errors : list MathError;
  duplicate_ids : list string;            (* f'Duplicate invoice_id: {inv_id}' *)
}.

(** The returned dict. *)
Module Report.
Record t : Type := {
  total_records : nat;
  missing_fields : nat;
  duplicate_ids : nat;
  math_errors : nat;
  sequence_gaps : nat;
  currencies : gmap string nat;
  vendors : gmap string nat;
  passed : bool;
}.
End Report.

(** The locals at the [return] statement, with the dict that is returned. *)
Record Outcome : Type := {
  checks : Checks;
  sequence_gaps : list string;            (* f'Missing invoice: {exp_id}' *)
  currencies : gmap string nat;
  vendors : gmap string nat;
  has_errors : bool;
  returned : Report.t;
}.

(** ** The function *)

Definition required_fields : list string :=
  [ "invoice_id"; "vendor"; "currency"; "invoice_date";
    "due_date"; "terms"; "subtotal"; "tax"; "shipping";
    "total"; "file_path" ].

(** Lines 58-60: the inner loop over [required_fields]. *)
Definition check_fields (i : nat) (record : InvoiceRecord)
    (missing : list (nat * string)) : list (nat * string) :=
  foldl (λ acc field, if contains record field then acc else acc ++ [(i, field)])
    missing required_fields.

(** Lines 70-82: the entries appended to [math_errors] for one record. *)
Definition check_math (inv_id : string) (record : InvoiceRecord) : list MathError :=
  let subtotal := default 0%float (subtotal record) in
  let tax := default 0%float (tax record) in
  let shipping := default 0%float (shipping record) in
  let total := default 0%float (total record) in
  let calculated_total := round2 (subtotal + tax + shipping)%float in
  let recorded_total := round2 total in
  if (tolerance <? abs (calculated_total - recorded_total))%float
  then [ {| err_inv_id := inv_id;
            err_calculated_total := calculated_total;
            err_recorded_total := recorded_total;
            err_subtotal := subtotal; err_tax := tax; err_shipping := shipping |} ]
  else [].

(** Lines 57-82: the body of [for i, record in enumerate(data)]. *)
Definition check_record (i : nat) (record : InvoiceRecord) (st : Checks) : Checks :=
  let inv_id := default "" (invoice_id record) in
  let seen := bool_decide (inv_id ∈ invoice_ids st) in
  {| missing_fields := check_fields i record (missing_fields st);
     duplicate_ids :=
       if seen then duplicate_ids st ++ [inv_id] else duplicate_ids st;
     invoice_ids :=
       if seen then invoice_ids st else {[ inv_id ]} ∪ invoice_ids st;
     math_errors := math_errors st ++ check_math inv_id record |}.

Fixpoint check_records_from (i : nat) (data : list InvoiceRecord) (st : Checks) : Checks :=
  match data with
  | [] => st
  | record :: rest => check_records_from (S i) rest (check_record i record st)
  end.

(** Lines 43-47. *)
Definition no_checks : Checks :=
  {| invoice_ids := ∅; missing_fields := []; math_errors := []; duplicate_ids := [] |}.

(** Lines 56-82. *)
Definition check_records (data : list InvoiceRecord) : Checks :=
  check_records_from 0 data no_checks.

(** Line 85. *)
Definition expected_ids : list string :=
  (λ i, "INV-2025-" +:+ zfill (str i) 4) <$> seq 1 120.

(** Line 86: [[record['invoice_id'] for record in data]]. *)
Fixpoint actual_ids (data : list InvoiceRecord) : result (list string) :=
  match data with
  | [] => Ok []
  | record :: rest =>
      match invoice_id record with
      | None => Raise (KeyError "invoice_id")
      | Some inv_id => ids ← actual_ids rest; Ok (inv_id :: ids)
      end
  end.

(** Lines 88-90. *)
Definition check_sequence (actual : list string) : list string :=
  foldl (λ gaps exp_id, if bool_decide (exp_id ∈ actual) then gaps else gaps ++ [exp_id])
    [] expected_ids.

(** [d[k] = d.get(k, 0) + 1] *)
Definition tally (k : string) (d : gmap string nat) : gmap string nat :=
  <[ k := default 0 (d !! k) + 1 ]> d.

(** Lines 129-135. *)
Definition statistics (data : list InvoiceRecord) : gmap string nat * gmap string nat :=
  foldl (λ '(currencies, vendors) record,
           let curr := default "Unknown" (currency record) in
           let vendor := default "Unknown" (vendor record) in
           (tally curr currencies, tally vendor vendors))
    (∅, ∅) data.

(** Lines 88-158, without the console output: from the sequence check to the
    [return], given the locals of the first loop and the list of line 86. *)
Definition conclude (data : list InvoiceRecord) (st : Checks) (actual : list string) : Outcome :=
  let sequence_gaps := check_sequence actual in
  let '(currencies, vendors) := statistics data in
  let has_errors :=
    truthy (missing_fields st) || truthy (duplicate_ids st)
    || truthy (math_errors st) || truthy sequence_gaps in
  {| checks := st;
     sequence_gaps := sequence_gaps;
     currencies := currencies;
     vendors := vendors;
     has_errors := has_errors;
     returned :=
       {| Report.total_records := length data;
          Report.missing_fields := length (missing_fields st);
          Report.duplicate_ids := length (duplicate_ids st);
          Report.math_errors := length (math_errors st);
          Report.sequence_gaps := length sequence_gaps;
          Report.currencies := currencies;
          Report.vendors := vendors;
          Report.passed := negb has_errors |} |}.

(** Lines 35-158, without the console output. *)
Definition validate_manifest_run (data : list InvoiceRecord) : result Outcome :=
  let st := check_records data in
  actual ← actual_ids data;
  Ok (conclude data st actual).

Definition validate_manifest (data : list InvoiceRecord) : result Report.t :=
  out ← validate_manifest_run data; Ok (returned out).

(** ** Console output and the function as a state transformer *)

(** One call of [print], with the values its f-string interpolates.  A call
    writes one line to the console unless an interpolated string (an invoice
    ID, a key of a frequency map) itself contains line breaks: the constructors
    count calls, not the line breaks of the text. *)
Inductive Line : Type :=
| Blank                                    (* print() *)
| Text (s : string)                        (* print of a constant string *)
| Count (label : string) (n : nat)         (* f'{label}: {n}' *)
| MissingLine (err : nat * string)         (* f'  - {err}' for the four kinds *)
| DuplicateLine (err : string)
| MathLine (err : MathError)
| GapLine (err : string)
| More (n : nat)                           (* f'  ... and {n} more' *)
| Dict (label : string) (d : gmap string nat).   (* f'{label}: {d}' *)

(** What a run can read and change: the parsed manifest file and the console,
    kept as the calls of [print] made so far. *)
Record World : Type := {
  manifest : list InvoiceRecord;
  console : list Line;
}.

Definition print (lines : list Line) (w : World) : World :=
  {| manifest := manifest w; console := console w ++ lines |}.

(** Lines 96-102, and alike 104-110, 112-118, 120-126. *)
Definition section_lines {A} (label : string) (line : A → Line) (errs : list A) : list Line :=
  [ Count label (length errs) ]
  ++ (if truthy errs
      then (line <$> take 10 errs)
           ++ (if decide (10 < length errs) then [ More (length errs - 10) ] else [])
      else [])
  ++ [ Blank ].

(** Lines 93-147: the calls of [print] after the sequence check. *)
Definition results_lines (out : Outcome) : list Line :=
  [ Text "=== CONSISTENCY CHECK RESULTS ==="; Blank ]
  ++ section_lines "Missing fields" MissingLine (missing_fields (checks out))
  ++ section_lines "Duplicate IDs" DuplicateLine (duplicate_ids (checks out))
  ++ section_lines "Math errors (subtotal+tax+shipping != total)" MathLine
       (math_errors (checks out))
  ++ section_lines "Sequence gaps" GapLine (sequence_gaps out)
  ++ [ Text "=== STATISTICS ===";
       Dict "Currencies" (currencies out);
       Dict "Vendors" (vendors out);
       Blank ]
  ++ [ if has_errors out
       then Text " Issues found - see details above"
       else Text " All consistency checks PASSED!" ].

(** Lines 35-158 with their effects: the manifest is read, [print] is called,
    and the dict is returned or [KeyError] is raised. *)
Definition validate_manifest_io (w : World) : result Report.t * World :=
  let data := manifest w in
  let w := print [ Count "Total records" (length data); Blank ] w in
  match validate_manifest_run data with
  | Ok out => (Ok (returned out), print (results_lines out) w)
  | Raise e => (Raise e, w)
  end.

(** ** Vocabulary of the properties *)

(** The required fields that [record] lacks, in the order of [required_fields]. *)
Definition absent_fields (record : InvoiceRecord) : list string :=
  filter (λ field, ¬ contains record field) required_fields.

(** How many times [x] occurs in [l]. *)
Definition occurrences `{EqDecision A} (x : A) (l : list A) : nat :=
  length (filter (x =.) l).

(** [record.get('invoice_id', '')] *)
Definition inv_id_of (record : InvoiceRecord) : string :=
  default "" (invoice_id record).

(** The missing-field entries of the records, numbered from [i]. *)
Fixpoint missing_rows (i : nat) (data : list InvoiceRecord) : list (nat * string) :=
  match data with
  | [] => []
  | record :: rest => (pair i <$> absent_fields record) ++ missing_rows (S i) rest
  end.

(** The IDs of [ids] that are in [seen] or occur earlier in [ids], one entry per
    such occurrence. *)
Fixpoint repeats (seen : gset string) (ids : list string) : list string :=
  match ids with
  | [] => []
  | inv_id :: rest =>
      if decide (inv_id ∈ seen) then inv_id :: repeats seen rest
      else repeats ({[ inv_id ]} ∪ seen) rest
  end.

(** The record has all eleven keys. *)
Definition has_all_fields (record : InvoiceRecord) : Prop :=
  is_Some (invoice_id record) ∧ is_Some (vendor record) ∧ is_Some (currency record)
  ∧ is_Some (invoice_date record) ∧ is_Some (due_date record) ∧ is_Some (terms record)
  ∧ is_Some (subtotal record) ∧ is_Some (tax record) ∧ is_Some (shipping record)
  ∧ is_Some (total record) ∧ is_Some (file_path record).

(** Every record has the key [invoice_id]. *)
Definition ids_present (data : list InvoiceRecord) : Prop :=
  Forall (λ record, is_Some (invoice_id record)) data.

Global Instance ids_present_dec data : Decision (ids_present data).
Proof. unfold ids_present. apply _. Defined.


(** [record.get('currency', 'Unknown')] and [record.get('vendor', 'Unknown')] *)
Definition currency_of (record : InvoiceRecord) : string :=
  default "Unknown" (currency record).

Definition vendor_of (record : InvoiceRecord) : string :=
  default "Unknown" (vendor record).

(** The frequency map of a list of keys. *)
Definition counts (keys : list string) : gmap string nat :=
  foldl (λ d k, tally k d) ∅ keys.

(** [sum(d.values())] *)
Definition total_count (d : gmap string nat) : nat :=
  map_fold (λ _ n acc, n + acc) 0 d.

(** The record with each key that is read through [get] set to the value read:
    the absent ones among them get their default. *)
Definition with_defaults (record : InvoiceRecord) : InvoiceRecord :=
  {| invoice_id := Some (inv_id_of record);
     vendor := Some (vendor_of record);
     currency := Some (currency_of record);
     invoice_date := invoice_date record; due_date := due_date record;
     terms := terms record;
     subtotal := Some (default 0%float (subtotal record));
     tax := Some (default 0%float (tax record));
     shipping := Some (default 0%float (shipping record));
     total := Some (default 0%float (total record));
     file_path := file_path record |}.

(** [abs(calculated_total - recorded_total)] of lines 75-78. *)
Definition totals_difference (record : InvoiceRecord) : float :=
  let subtotal := default 0%float (subtotal record) in
  let tax := default 0%float (tax record) in
  let shipping := default 0%float (shipping record) in
  let total := default 0%float (total record) in
  abs (round2 (subtotal + tax + shipping) - round2 total)%float.

(** The entry of a record that fails the arithmetic check. *)
Definition math_error_of (record : InvoiceRecord) : MathError :=
  let subtotal := default 0%float (subtotal record) in
  let tax := default 0%float (tax record) in
  let shipping := default 0%float (shipping record) in
  let total := default 0%float (total record) in
  {| err_inv_id := inv_id_of record;
     err_calculated_total := round2 (subtotal + tax + shipping)%float;
     err_recorded_total := round2 total;
     err_subtotal := subtotal; err_tax := tax; err_shipping := shipping |}.


(** An amount of the size an invoice has: a number of magnitude below [2^53],
    the range in which a JSON integer and its float are the same number. *)
Definition amount_bound : float := 0x1p53%float.

Definition ordinary (x : float) : Prop := (abs x <? amount_bound)%float = true.

Global Instance ordinary_dec x : Decision (ordinary x).
Proof. unfold ordinary. apply _. Defined.


(** ** Sample manifests *)

(** A record with all eleven keys. *)
Definition invoice (inv_id : string) (subtotal tax shipping total : float) : InvoiceRecord :=
  {| invoice_id := Some inv_id; vendor := Some "Contoso Ltd"; currency := Some "USD";
     invoice_date := Some "2025-01-15"; due_date := Some "2025-02-14";
     terms := Some "Net 30";
     subtotal := Some subtotal; tax := Some tax; shipping := Some shipping;
     total := Some total; file_path := Some ("invoices/" +:+ inv_id +:+ ".pdf") |}.

(** [del record['invoice_id']] and [del record['vendor']]. *)
Definition without_invoice_id (record : InvoiceRecord) : InvoiceRecord :=
  {| invoice_id := None; vendor := vendor record; currency := currency record;
     invoice_date := invoice_date record; due_date := due_date record;
     terms := terms record; subtotal := subtotal record; tax := tax record;
     shipping := shipping record; total := total record; file_path := file_path record |}.

Definition without_vendor (record : InvoiceRecord) : InvoiceRecord :=
  {| invoice_id := invoice_id record; vendor := None; currency := currency record;
     invoice_date := invoice_date record; due_date := due_date record;
     terms := terms record; subtotal := subtotal record; tax := tax record;
     shipping := shipping record; total := total record; file_path := file_path record |}.

(** All 120 invoices, each with matching totals. *)
Definition full_manifest : list InvoiceRecord :=
  (λ inv_id, invoice inv_id 100 20 5 125) <$> expected_ids.

(** [{"subtotal": 1e999, "tax": 0.0, "shipping": 0.0, "total": 1e999, ...}] *)
Definition infinite_invoice : InvoiceRecord :=
  invoice "INV-2025-0001" infinity 0 0 infinity.

(** Four records: a wrong total, a repeated ID and a record without vendor. *)
Definition small_manifest : list InvoiceRecord :=
  [ invoice "INV-2025-0001" 100 20 5 125;
    invoice "INV-2025-0007" 100 20 5 130;
    without_vendor (invoice "INV-2025-0007" 250 50 0 300);
    invoice "INV-2025-0003" 10 2 0 12 ].

(** ** Vocabulary of the further properties *)

(** The arithmetic check lets the record through: the guard of line 78 is false. *)
Definition arithmetic_ok (record : InvoiceRecord) : Prop :=
  (tolerance <? totals_difference record)%float = false.

Global Instance arithmetic_ok_dec record : Decision (arithmetic_ok record).
Proof. unfold arithmetic_ok. apply _. Defined.

(** A manifest on which all four checks find nothing. *)
Definition sound_manifest (data : list InvoiceRecord) : Prop :=
  Forall has_all_fields data
  ∧ NoDup (inv_id_of <$> data)
  ∧ expected_ids ⊆ (inv_id_of <$> data)
  ∧ Forall arithmetic_ok data.

(** ** The script's entry point *)






Section entry_point.

(** [pathlib]'s [/]. *)
Variable joinpath : string → string → string.



End entry_point.

(** * Properties *)

(** ** [round(x, 2)] on sample values *)

(** [round(0.125, 2) == 0.12] (a tie, to even), [round(0.375, 2) == 0.38],
    [round(2.675, 2) == 2.67], [round(12345.678, 2) == 12345.68],
    [round(-0.001, 2) == -0.0], [round(1e16, 2) == 1e16]. *)
Example round2_samples :
  round2 0x1p-3 = 0x1.eb851eb851eb8p-4%float
  ∧ round2 0x1.8p-2 = 0x1.851eb851eb852p-2%float
  ∧ round2 0x1.5666666666666p+1 = 0x1.55c28f5c28f5cp+1%float
  ∧ round2 0x1.81cd6c8b43958p+13 = 0x1.81cd70a3d70a4p+13%float
  ∧ round2 (-0x1.0624dd2f1a9fcp-10) = (-0)%float
  ∧ round2 0x1.1c37937e08p+53 = 0x1.1c37937e08p+53%float
  ∧ round2 infinity = infinity ∧ round2 nan = nan.
Proof. repeat split; vm_compute; reflexivity. Qed.

(** ** Loops as filters *)

Section loops.
Context {A B : Type}.

(** A loop that appends [f x] for every [x] it does not skip. *)
Lemma foldl_snoc_unless (skip : A → bool) (f : A → B) (l : list A) (acc : list B) :
  foldl (λ acc x, if skip x then acc else acc ++ [f x]) acc l
  = acc ++ (f <$> filter (λ x, ¬ skip x) l).
Proof.
  revert acc. induction l as [|x l IH]; intros acc; simpl.
  - by rewrite app_nil_r.
  - rewrite IH, filter_cons. destruct (skip x); simpl.
    + done.
    + by rewrite <- app_assoc.
Qed.

Lemma filter_nil_Forall (P : A → Prop) `{∀ x, Decision (P x)} (l : list A) :
  filter P l = [] ↔ Forall (λ x, ¬ P x) l.
Proof.
  induction l as [|x l IH]; [by rewrite Forall_nil|].
  rewrite filter_cons, Forall_cons. case_decide; [|tauto].
  split; [done|]. by intros [? _].
Qed.
End loops.

Lemma check_fields_absent i record missing :
  check_fields i record missing = missing ++ (pair i <$> absent_fields record).
Proof. apply (foldl_snoc_unless (contains record) (pair i)). Qed.

Lemma check_sequence_filter actual :
  check_sequence actual = filter (λ exp_id, exp_id ∉ actual) expected_ids.
Proof.
  unfold check_sequence.
  rewrite (foldl_snoc_unless (λ x, bool_decide (x ∈ actual)) id), list_fmap_id.
  simpl. apply list_filter_iff. intros x. by rewrite bool_decide_spec.
Qed.

(** ** Counting occurrences *)

Section occurrences.
Context `{EqDecision A}.
Implicit Types (x y : A) (l : list A).

Lemma occurrences_nil x : occurrences x [] = 0.
Proof. done. Qed.

Lemma occurrences_cons x y l :
  occurrences x (y :: l) = (if decide (x = y) then 1 else 0) + occurrences x l.
Proof. unfold occurrences. rewrite filter_cons. by case_decide. Qed.

Lemma occurrences_app x l1 l2 :
  occurrences x (l1 ++ l2) = occurrences x l1 + occurrences x l2.
Proof. unfold occurrences. by rewrite filter_app, length_app. Qed.

Lemma occurrences_not_elem x l : x ∉ l → occurrences x l = 0.
Proof.
  induction l as [|y l IH]; [done|]. rewrite not_elem_of_cons. intros [? ?].
  rewrite occurrences_cons, decide_False by done. by rewrite IH.
Qed.

Lemma occurrences_pos x l : x ∈ l ↔ 0 < occurrences x l.
Proof.
  split.
  - induction 1 as [y l|y z l _ IH]; rewrite occurrences_cons.
    + rewrite decide_True by done. lia.
    + lia.
  - intros Hpos. destruct (decide (x ∈ l)) as [|Hnot]; [done|].
    rewrite (occurrences_not_elem _ _ Hnot) in Hpos. lia.
Qed.

Lemma occurrences_NoDup x l : NoDup l → x ∈ l → occurrences x l = 1.
Proof.
  induction 1 as [|y l Hy _ IH]; [by intros ?%elem_of_nil|].
  rewrite elem_of_cons, occurrences_cons. intros [->|Hx].
  - rewrite decide_True by done. by rewrite occurrences_not_elem.
  - rewrite decide_False by (intros ->; done). by rewrite IH.
Qed.

Lemma occurrences_filter (P : A → Prop) `{∀ y, Decision (P y)} x l :
  occurrences x (filter P l) = if decide (P x) then occurrences x l else 0.
Proof.
  induction l as [|y l IH]; [by case_decide|].
  rewrite filter_cons. destruct (decide (P y)) as [HP|HP].
  - rewrite !occurrences_cons, IH. repeat case_decide; subst; done.
  - rewrite IH, occurrences_cons. repeat case_decide; subst; done.
Qed.

Lemma occurrences_delete x l i y :
  l !! i = Some y →
  occurrences x l = (if decide (x = y) then 1 else 0) + occurrences x (delete i l).
Proof.
  revert i. induction l as [|z l IH]; intros [|i] Hi; simplify_eq/=.
  - by rewrite occurrences_cons.
  - rewrite !occurrences_cons, (IH i Hi). lia.
Qed.
End occurrences.

Lemma occurrences_fmap_inj `{EqDecision A, EqDecision B} (f : A → B) `{!Inj (=) (=) f}
    (x : A) (l : list A) :
  occurrences (f x) (f <$> l) = occurrences x l.
Proof.
  induction l as [|y l IH]; [done|]. rewrite fmap_cons, !occurrences_cons, IH.
  repeat case_decide; simplify_eq; done.
Qed.

(** ** The per-record loop, component by component *)

Lemma check_records_from_spec i data st :
  check_records_from i data st =
  {| invoice_ids := invoice_ids st ∪ list_to_set (inv_id_of <$> data);
     missing_fields := missing_fields st ++ missing_rows i data;
     math_errors := math_errors st ++ (data ≫= λ record, check_math (inv_id_of record) record);
     duplicate_ids := duplicate_ids st ++ repeats (invoice_ids st) (inv_id_of <$> data) |}.
Proof.
  revert i st. induction data as [|record rest IH]; intros i st; simpl.
  - destruct st; simpl. rewrite !app_nil_r. f_equal. set_solver.
  - rewrite IH. unfold check_record. fold (inv_id_of record). simpl.
    rewrite check_fields_absent, <- !app_assoc.
    destruct (decide (inv_id_of record ∈ invoice_ids st)) as [Hin|Hin].
    + rewrite bool_decide_true by done. rewrite <- app_assoc. f_equal. set_solver.
    + rewrite bool_decide_false by done. f_equal. set_solver.
Qed.

Lemma check_records_spec data :
  check_records data =
  {| invoice_ids := list_to_set (inv_id_of <$> data);
     missing_fields := missing_rows 0 data;
     math_errors := data ≫= λ record, check_math (inv_id_of record) record;
     duplicate_ids := repeats ∅ (inv_id_of <$> data) |}.
Proof.
  unfold check_records. rewrite check_records_from_spec. simpl. f_equal. set_solver.
Qed.

(** ** Required fields *)

Lemma present_is_Some {A} (o : option A) : present o ↔ is_Some o.
Proof. destruct o; simpl; split; (done || eauto || by intros [? ?]). Qed.

Lemma not_not_Is_true (b : bool) : ¬ ¬ b ↔ b.
Proof. destruct b; simpl; tauto. Qed.

Lemma required_fields_NoDup : NoDup required_fields.
Proof. apply (bool_decide_unpack _). by vm_compute. Qed.

Lemma absent_fields_nil record : absent_fields record = [] ↔ has_all_fields record.
Proof.
  unfold absent_fields, has_all_fields. rewrite filter_nil_Forall.
  setoid_rewrite <- present_is_Some.
  unfold required_fields. rewrite !Forall_cons, Forall_nil.
  unfold contains; simpl. rewrite !not_not_Is_true. tauto.
Qed.

Lemma occurrences_absent_fields record field :
  occurrences field (absent_fields record)
  = if decide (field ∈ required_fields) then if contains record field then 0 else 1 else 0.
Proof.
  unfold absent_fields. rewrite occurrences_filter.
  destruct (decide (field ∈ required_fields)) as [Hin|Hin].
  - rewrite (occurrences_NoDup _ _ required_fields_NoDup Hin).
    destruct (contains record field); by case_decide.
  - rewrite (occurrences_not_elem _ _ Hin). by case_decide.
Qed.

Lemma occurrences_missing_rows k field i data :
  occurrences (k, field) (missing_rows i data)
  = if decide (i ≤ k)
    then from_option (λ record, occurrences field (absent_fields record)) 0 (data !! (k - i))
    else 0.
Proof.
  revert i. induction data as [|record rest IH]; intros i; simpl.
  - by case_decide.
  - rewrite occurrences_app, IH. destruct (decide (k = i)) as [->|Hne].
    + rewrite (occurrences_fmap_inj (pair i)), Nat.sub_diag. simpl.
      repeat case_decide; lia.
    + rewrite occurrences_not_elem by (rewrite list_elem_of_fmap; naive_solver).
      destruct (decide (i ≤ k)).
      * rewrite decide_True by lia. by replace (k - i) with (S (k - S i)) by lia.
      * by rewrite decide_False by lia.
Qed.

Lemma missing_rows_nil i data : missing_rows i data = [] ↔ Forall has_all_fields data.
Proof.
  revert i. induction data as [|record rest IH]; intros i; simpl.
  - by rewrite Forall_nil.
  - rewrite Forall_cons, <- (IH (S i)), <- absent_fields_nil. split.
    + intros [H1 H2]%app_eq_nil. by apply fmap_nil_inv in H1.
    + intros [-> ->]. done.
Qed.

(** ** When the run returns *)

Lemma actual_ids_Ok data : ids_present data → actual_ids data = Ok (inv_id_of <$> data).
Proof.
  induction 1 as [|record rest [inv_id Hid] _ IH]; [done|].
  simpl. unfold inv_id_of at 1. rewrite Hid, IH. done.
Qed.

Lemma actual_ids_Raise data :
  ¬ ids_present data → actual_ids data = Raise (KeyError "invoice_id").
Proof.
  induction data as [|record rest IH]; intros Hnot.
  - destruct Hnot. constructor.
  - simpl. destruct (invoice_id record) as [inv_id|] eqn:Hid; [|done].
    rewrite IH; [done|]. intros Hrest. apply Hnot. constructor; [by rewrite Hid|done].
Qed.

Lemma validate_manifest_run_Ok data :
  ids_present data →
  validate_manifest_run data = Ok (conclude data (check_records data) (inv_id_of <$> data)).
Proof. intros Hids. unfold validate_manifest_run. by rewrite (actual_ids_Ok _ Hids). Qed.

Lemma validate_manifest_run_Raise data :
  ¬ ids_present data → validate_manifest_run data = Raise (KeyError "invoice_id").
Proof. intros Hids. unfold validate_manifest_run. by rewrite (actual_ids_Raise _ Hids). Qed.

Lemma validate_manifest_run_inv data out :
  validate_manifest_run data = Ok out →
  ids_present data ∧ out = conclude data (check_records data) (inv_id_of <$> data).
Proof.
  intros Hrun. destruct (decide (ids_present data)) as [Hids|Hids].
  - rewrite (validate_manifest_run_Ok _ Hids) in Hrun. by simplify_eq.
  - by rewrite (validate_manifest_run_Raise _ Hids) in Hrun.
Qed.

Lemma conclude_checks data st actual : checks (conclude data st actual) = st.
Proof. unfold conclude. by destruct (statistics data). Qed.

Lemma conclude_sequence_gaps data st actual :
  sequence_gaps (conclude data st actual) = check_sequence actual.
Proof. unfold conclude. by destruct (statistics data). Qed.

Lemma conclude_returned data st actual :
  returned (conclude data st actual) =
  {| Report.total_records := length data;
     Report.missing_fields := length (missing_fields st);
     Report.duplicate_ids := length (duplicate_ids st);
     Report.math_errors := length (math_errors st);
     Report.sequence_gaps := length (check_sequence actual);
     Report.currencies := (statistics data).1;
     Report.vendors := (statistics data).2;
     Report.passed :=
       negb (truthy (missing_fields st) || truthy (duplicate_ids st)
             || truthy (math_errors st) || truthy (check_sequence actual)) |}.
Proof. unfold conclude. by destruct (statistics data). Qed.

(** * The claims *)

(** ** Verdict *)

Lemma truthy_false {A} (l : list A) : truthy l = false ↔ l = [].
Proof. by destruct l. Qed.

(** C1: when the run returns, [passed] is true if and only if the four
    diagnostic lists [missing_fields], [duplicate_ids], [math_errors] and
    [sequence_gaps] are all empty, that is, if and only if the four counts of
    the returned dict are all zero. *)
Theorem passed_iff_no_diagnostics (data : list InvoiceRecord) (out : Outcome) :
  validate_manifest_run data = Ok out →
  (Report.passed (returned out) = true ↔
     missing_fields (checks out) = [] ∧ duplicate_ids (checks out) = []
     ∧ math_errors (checks out) = [] ∧ sequence_gaps out = [])
  ∧ (Report.passed (returned out) = true ↔
       Report.missing_fields (returned out) = 0 ∧ Report.duplicate_ids (returned out) = 0
       ∧ Report.math_errors (returned out) = 0 ∧ Report.sequence_gaps (returned out) = 0).
Proof.
  intros [_ ->]%validate_manifest_run_inv.
  rewrite conclude_checks, conclude_sequence_gaps, conclude_returned.
  generalize (check_records data) (check_sequence (inv_id_of <$> data)).
  intros st gaps. cbn.
  rewrite !length_zero_iff_nil, negb_true_iff, !orb_false_iff, !truthy_false.
  tauto.
Qed.

(** The full manifest passes: both sides of C1 hold for it. *)
Lemma passed_iff_no_diagnostics_witness :
  let out :=
    conclude full_manifest (check_records full_manifest) (inv_id_of <$> full_manifest) in
  validate_manifest_run full_manifest = Ok out
  ∧ Report.passed (returned out) = true
  ∧ (Report.passed (returned out) = true ↔
       missing_fields (checks out) = [] ∧ duplicate_ids (checks out) = []
       ∧ math_errors (checks out) = [] ∧ sequence_gaps out = []).
Proof.
  assert (ids_present full_manifest) as Hids
    by (apply (bool_decide_unpack _); vm_compute; exact I).
  split; [exact (validate_manifest_run_Ok _ Hids)|].
  split; [vm_compute; reflexivity|].
  exact (proj1 (passed_iff_no_diagnostics full_manifest _ (validate_manifest_run_Ok _ Hids))).
Defined.

(** ** Completion *)

(** The run returns exactly when every record has the key [invoice_id]. *)
Lemma validate_manifest_returns_iff (data : list InvoiceRecord) :
  returns (validate_manifest data) ↔ ids_present data.
Proof.
  unfold returns, validate_manifest. split.
  - intros [rep Hrep]. destruct (decide (ids_present data)) as [|Hnot]; [done|].
    by rewrite (validate_manifest_run_Raise _ Hnot) in Hrep.
  - intros Hids. rewrite (validate_manifest_run_Ok _ Hids). by eexists.
Qed.

Lemma validate_manifest_raises (data : list InvoiceRecord) :
  ¬ ids_present data → validate_manifest data = Raise (KeyError "invoice_id").
Proof.
  intros Hnot. unfold validate_manifest. by rewrite (validate_manifest_run_Raise _ Hnot).
Qed.

(** C2, at a failing input: for the manifest whose single record has every key
    but [invoice_id], the first loop records the missing field as a diagnostic
    (line 60) and reads the ID with a default (line 63), but line 86 then raises
    [KeyError] and no report is returned. *)
Theorem missing_invoice_id_raises :
  let data := [ without_invoice_id (invoice "INV-2025-0001" 100 20 5 125) ] in
  missing_fields (check_records data) = [ (0, "invoice_id") ]
  ∧ duplicate_ids (check_records data) = []
  ∧ validate_manifest_run data = Raise (KeyError "invoice_id")
  ∧ validate_manifest data = Raise (KeyError "invoice_id")
  ∧ ¬ returns (validate_manifest data).
Proof.
  repeat split; try (vm_compute; reflexivity).
  intros [rep Hrep]. vm_compute in Hrep. discriminate.
Qed.

(** ** The empty manifest *)

(** C8: for the empty manifest the run returns a report with
    [total_records = 0], all 120 expected IDs in [sequence_gaps] and
    [passed = False]. *)
Theorem empty_manifest_fails :
  let out := conclude [] (check_records []) [] in
  validate_manifest_run [] = Ok out
  ∧ validate_manifest [] = Ok (returned out)
  ∧ Report.total_records (returned out) = 0
  ∧ sequence_gaps out = expected_ids
  ∧ length expected_ids = 120
  ∧ head expected_ids = Some "INV-2025-0001"
  ∧ last expected_ids = Some "INV-2025-0120"
  ∧ Report.sequence_gaps (returned out) = 120
  ∧ Report.passed (returned out) = false.
Proof. repeat split; vm_compute; reflexivity. Qed.

(** ** Required fields *)

Lemma missing_fields_occurrences (data : list InvoiceRecord) i record field :
  data !! i = Some record → field ∈ required_fields →
  occurrences (i, field) (missing_fields (check_records data))
  = if contains record field then 0 else 1.
Proof.
  intros Hi Hfield. rewrite check_records_spec; cbn [missing_fields].
  rewrite occurrences_missing_rows, decide_True, Nat.sub_0_r, Hi by lia. simpl.
  by rewrite occurrences_absent_fields, decide_True.
Qed.

(** C6: [missing_fields] is empty if and only if every record has all eleven
    required keys; the record at index [i] contributes exactly one entry
    [(i, field)] for each required [field] it lacks and none for a field it
    has; there are no other entries; and the returned dict counts them. *)
Theorem missing_fields_exact (data : list InvoiceRecord) :
  let missing := missing_fields (check_records data) in
  (missing = [] ↔ Forall has_all_fields data)
  ∧ (∀ i record field,
       data !! i = Some record → field ∈ required_fields →
       occurrences (i, field) missing = if contains record field then 0 else 1)
  ∧ (∀ i field,
       (i, field) ∈ missing →
       ∃ record, data !! i = Some record ∧ field ∈ required_fields
                 ∧ contains record field = false)
  ∧ (∀ out,
       validate_manifest_run data = Ok out →
       missing_fields (checks out) = missing
       ∧ Report.missing_fields (returned out) = length missing
       ∧ (Report.missing_fields (returned out) = 0 ↔ Forall has_all_fields data)).
Proof.
  cbv zeta. rewrite check_records_spec; cbn [missing_fields].
  assert (∀ i field, occurrences (i, field) (missing_rows 0 data)
            = from_option (λ record, occurrences field (absent_fields record)) 0 (data !! i))
    as Hocc.
  { intros i field. rewrite occurrences_missing_rows, decide_True by lia.
    by rewrite Nat.sub_0_r. }
  split; [apply missing_rows_nil|]. split; [|split].
  - intros i record field Hi Hfield.
    rewrite <- (missing_fields_occurrences data i record field Hi Hfield).
    by rewrite check_records_spec.
  - intros i field Hin%occurrences_pos. rewrite Hocc in Hin.
    destruct (data !! i) as [record|]; simpl in Hin; [|lia].
    exists record. rewrite occurrences_absent_fields in Hin.
    case_decide; [|lia]. destruct (contains record field); [lia|done].
  - intros out [_ ->]%validate_manifest_run_inv.
    rewrite conclude_checks, conclude_returned, check_records_spec.
    cbn [missing_fields Report.missing_fields].
    by rewrite length_zero_iff_nil, missing_rows_nil.
Qed.

(** In the small manifest only the third record lacks a key, [vendor]. *)
Lemma missing_fields_exact_witness :
  occurrences (2, "vendor") (missing_fields (check_records small_manifest)) = 1
  ∧ occurrences (2, "total") (missing_fields (check_records small_manifest)) = 0
  ∧ ¬ Forall has_all_fields small_manifest.
Proof.
  destruct (missing_fields_exact small_manifest) as (Hnil & Hocc & _ & _).
  split; [|split].
  - apply (Hocc 2 (without_vendor (invoice "INV-2025-0007" 250 50 0 300)) "vendor");
      [reflexivity | apply (bool_decide_unpack _); vm_compute; exact I].
  - apply (Hocc 2 (without_vendor (invoice "INV-2025-0007" 250 50 0 300)) "total");
      [reflexivity | apply (bool_decide_unpack _); vm_compute; exact I].
  - intros Hall. apply Hnil in Hall. vm_compute in Hall. discriminate.
Defined.

(** ** Duplicate IDs *)

Lemma repeats_length seen ids :
  length (repeats seen ids) + size (seen ∪ list_to_set ids) = length ids + size seen.
Proof.
  revert seen. induction ids as [|inv_id rest IH]; intros seen; simpl.
  - by rewrite (right_id_L ∅ (∪)).
  - destruct (decide (inv_id ∈ seen)) as [Hin|Hin]; simpl.
    + replace (seen ∪ ({[inv_id]} ∪ list_to_set rest)) with (seen ∪ list_to_set rest)
        by set_solver.
      specialize (IH seen). lia.
    + replace (seen ∪ ({[inv_id]} ∪ list_to_set rest))
        with (({[inv_id]} ∪ seen) ∪ list_to_set rest) by set_solver.
      specialize (IH ({[inv_id]} ∪ seen)).
      assert ({[inv_id]} ## seen) as Hdisj by set_solver.
      rewrite (size_union _ _ Hdisj), size_singleton in IH. lia.
Qed.

Lemma repeats_occurrences seen ids inv_id :
  occurrences inv_id (repeats seen ids)
  = if decide (inv_id ∈ seen) then occurrences inv_id ids else occurrences inv_id ids - 1.
Proof.
  revert seen. induction ids as [|x rest IH]; intros seen; simpl.
  - by case_decide.
  - rewrite (occurrences_cons inv_id x rest). destruct (decide (x ∈ seen)) as [Hx|Hx].
    + rewrite occurrences_cons, IH.
      repeat case_decide; simplify_eq; (done || lia).
    + rewrite IH. destruct (decide (inv_id = x)) as [->|Hne].
      * rewrite decide_True by set_solver. rewrite decide_False by done. lia.
      * destruct (decide (inv_id ∈ seen)).
        -- rewrite decide_True by set_solver. done.
        -- rewrite decide_False by set_solver. done.
Qed.

Lemma repeats_sublist seen ids : repeats seen ids `sublist_of` ids.
Proof.
  revert seen. induction ids as [|x rest IH]; intros seen; simpl; [done|].
  case_decide; [by apply sublist_skip | by apply sublist_cons].
Qed.

(** C5: when every record has the key [invoice_id], the run returns and the
    number of entries in [duplicate_ids] is the number of records minus the
    number of distinct IDs; an ID that occurs [n] times gives [n - 1] entries,
    one for each occurrence after the first, in the order of the records. *)
Theorem duplicate_ids_count (data : list InvoiceRecord) :
  ids_present data →
  ∃ out ids,
    validate_manifest_run data = Ok out ∧ actual_ids data = Ok ids
    ∧ length ids = length data
    ∧ let dups := duplicate_ids (checks out) in
      let distinct := size (list_to_set ids : gset string) in
      Report.duplicate_ids (returned out) = length dups
      ∧ length dups = length data - distinct
      ∧ distinct ≤ length data
      ∧ (∀ inv_id, occurrences inv_id dups = occurrences inv_id ids - 1)
      ∧ dups `sublist_of` ids.
Proof.
  intros Hids. eexists _, _.
  split; [by apply validate_manifest_run_Ok|]. split; [by apply actual_ids_Ok|].
  rewrite conclude_checks, conclude_returned, check_records_spec, length_fmap.
  cbn [duplicate_ids Report.duplicate_ids].
  pose proof (repeats_length ∅ (inv_id_of <$> data)) as Hlen.
  rewrite (left_id_L ∅ (∪)), size_empty, length_fmap in Hlen.
  split; [done|]. split; [done|]. split; [lia|]. split; [lia|]. split.
  - intros inv_id. rewrite repeats_occurrences. by rewrite decide_False by set_solver.
  - apply repeats_sublist.
Qed.

(** In the small manifest one ID occurs twice: one entry. *)
Lemma duplicate_ids_count_witness :
  ∃ out ids,
    validate_manifest_run small_manifest = Ok out ∧ actual_ids small_manifest = Ok ids
    ∧ length ids = length small_manifest
    ∧ let dups := duplicate_ids (checks out) in
      let distinct := size (list_to_set ids : gset string) in
      Report.duplicate_ids (returned out) = length dups
      ∧ length dups = length small_manifest - distinct
      ∧ distinct ≤ length small_manifest
      ∧ (∀ inv_id, occurrences inv_id dups = occurrences inv_id ids - 1)
      ∧ dups `sublist_of` ids.
Proof.
  apply (duplicate_ids_count small_manifest).
  apply (bool_decide_unpack _). vm_compute. exact I.
Defined.

Example small_manifest_duplicates :
  duplicate_ids (check_records small_manifest) = [ "INV-2025-0007" ].
Proof. vm_compute. reflexivity. Qed.

(** ** Sequence gaps *)



Lemma expected_ids_NoDup : NoDup expected_ids.
Proof. apply (bool_decide_unpack _). vm_compute. exact I. Qed.

(** The expected IDs are [INV-2025-0001] to [INV-2025-0120]. *)
Lemma elem_of_expected_ids (exp_id : string) :
  exp_id ∈ expected_ids ↔ ∃ n, 1 ≤ n ≤ 120 ∧ exp_id = "INV-2025-" +:+ zfill (str n) 4.
Proof.
  unfold expected_ids. rewrite list_elem_of_fmap. setoid_rewrite elem_of_seq.
  split; intros (n & ? & ?); exists n; (split; [done || lia|done || lia]).
Qed.




Example small_manifest_gaps :
  take 3 (check_sequence [ "INV-2025-0001"; "INV-2025-0007"; "INV-2025-0007"; "INV-2025-0003" ])
  = [ "INV-2025-0002"; "INV-2025-0004"; "INV-2025-0005" ]
  ∧ length (check_sequence [ "INV-2025-0001"; "INV-2025-0007"; "INV-2025-0007"; "INV-2025-0003" ])
    = 117.
Proof. split; vm_compute; reflexivity. Qed.

(** ** Statistics *)

Lemma statistics_counts (data : list InvoiceRecord) :
  statistics data = (counts (currency_of <$> data), counts (vendor_of <$> data)).
Proof.
  unfold statistics, counts. generalize (∅ : gmap string nat) at 1 3.
  generalize (∅ : gmap string nat).
  induction data as [|record rest IH]; intros v c; [done|]. simpl. by rewrite IH.
Qed.

Lemma tally_lookup (k x : string) (d : gmap string nat) :
  tally x d !! k = if decide (x = k) then Some (default 0 (d !! k) + 1) else d !! k.
Proof.
  unfold tally. case_decide as Hx.
  - subst. by rewrite lookup_insert_eq.
  - by rewrite lookup_insert_ne.
Qed.

Lemma foldl_tally_lookup (keys : list string) (d : gmap string nat) (k : string) :
  foldl (λ d k, tally k d) d keys !! k
  = if decide (k ∈ keys) then Some (default 0 (d !! k) + occurrences k keys) else d !! k.
Proof.
  revert d. induction keys as [|x rest IH]; intros d; simpl.
  - done.
  - rewrite IH, tally_lookup, occurrences_cons.
    destruct (decide (k ∈ rest)) as [Hin|Hin].
    + rewrite (decide_True (P := k ∈ x :: rest)) by (rewrite elem_of_cons; by right).
      repeat case_decide; simplify_eq; simpl; f_equal; lia.
    + rewrite (occurrences_not_elem _ _ Hin). destruct (decide (x = k)) as [->|Hne].
      * rewrite (decide_True (P := k ∈ k :: rest)) by (rewrite elem_of_cons; by left).
        rewrite decide_True by done. f_equal; lia.
      * rewrite (decide_False (P := k ∈ x :: rest))
          by (rewrite elem_of_cons; naive_solver).
        done.
Qed.

Lemma counts_lookup (keys : list string) (k : string) :
  counts keys !! k = if decide (k ∈ keys) then Some (occurrences k keys) else None.
Proof. unfold counts. by rewrite foldl_tally_lookup, lookup_empty. Qed.

Lemma counts_lookup_default (keys : list string) (k : string) :
  default 0 (counts keys !! k) = occurrences k keys.
Proof.
  rewrite counts_lookup. case_decide as Hin; [done|].
  by rewrite (occurrences_not_elem _ _ Hin).
Qed.

Lemma total_count_insert (k : string) (n : nat) (d : gmap string nat) :
  total_count (<[k:=n]> d) + default 0 (d !! k) = n + total_count d.
Proof.
  assert (∀ (m : gmap string nat) (j1 j2 : string) (z1 z2 y : nat),
    j1 ≠ j2 → m !! j1 = Some z1 → m !! j2 = Some z2 →
    z1 + (z2 + y) = z2 + (z1 + y)) as Hcomm by (intros; lia).
  unfold total_count. destruct (d !! k) as [x|] eqn:Hk; simpl.
  - rewrite (map_fold_delete_L _ _ k x d (Hcomm d) Hk).
    rewrite <- (insert_delete_eq d).
    rewrite map_fold_insert_L; [lia|apply Hcomm|apply lookup_delete_eq].
  - rewrite map_fold_insert_L; [lia|apply Hcomm|done].
Qed.

Lemma total_count_tally (k : string) (d : gmap string nat) :
  total_count (tally k d) = S (total_count d).
Proof.
  unfold tally. pose proof (total_count_insert k (default 0 (d !! k) + 1) d). lia.
Qed.

Lemma total_count_counts (keys : list string) : total_count (counts keys) = length keys.
Proof.
  unfold counts.
  assert (∀ d, total_count (foldl (λ d k, tally k d) d keys) = length keys + total_count d)
    as Hgen.
  { induction keys as [|k rest IH]; intros d; simpl; [done|].
    rewrite IH, total_count_tally. lia. }
  rewrite Hgen. unfold total_count. rewrite map_fold_empty. lia.
Qed.

(** C10: when the run returns, the counts of [currencies] add up to
    [total_records], and so do the counts of [vendors]: each map holds, for
    every key, the number of records with that value, ["Unknown"] standing for
    an absent field. *)
Theorem statistics_count_every_record (data : list InvoiceRecord) (out : Outcome) :
  validate_manifest_run data = Ok out →
  total_count (Report.currencies (returned out)) = Report.total_records (returned out)
  ∧ total_count (Report.vendors (returned out)) = Report.total_records (returned out)
  ∧ Report.total_records (returned out) = length data
  ∧ (∀ k, default 0 (Report.currencies (returned out) !! k)
          = occurrences k (currency_of <$> data))
  ∧ (∀ k, default 0 (Report.vendors (returned out) !! k)
          = occurrences k (vendor_of <$> data)).
Proof.
  intros [_ ->]%validate_manifest_run_inv.
  rewrite conclude_returned, statistics_counts.
  cbn [Report.currencies Report.vendors Report.total_records fst snd].
  rewrite !total_count_counts, !length_fmap.
  repeat split; auto using counts_lookup_default.
Qed.

Lemma statistics_count_every_record_witness :
  let out :=
    conclude small_manifest (check_records small_manifest) (inv_id_of <$> small_manifest) in
  total_count (Report.currencies (returned out)) = 4
  ∧ total_count (Report.vendors (returned out)) = 4
  ∧ Report.vendors (returned out) !! "Unknown" = Some 1
  ∧ Report.vendors (returned out) !! "Contoso Ltd" = Some 3.
Proof.
  assert (ids_present small_manifest) as Hids
    by (apply (bool_decide_unpack _); vm_compute; exact I).
  destruct (statistics_count_every_record small_manifest _
              (validate_manifest_run_Ok _ Hids)) as (Hc & Hv & Hn & _).
  split; [by rewrite Hc, Hn|]. split; [by rewrite Hv, Hn|].
  split; vm_compute; reflexivity.
Defined.

(** ** Absent fields are read as their defaults *)

Lemma conclude_statistics data st actual :
  currencies (conclude data st actual) = (statistics data).1
  ∧ vendors (conclude data st actual) = (statistics data).2.
Proof. unfold conclude. by destruct (statistics data). Qed.

Lemma check_math_with_defaults (record : InvoiceRecord) :
  check_math (inv_id_of (with_defaults record)) (with_defaults record)
  = check_math (inv_id_of record) record.
Proof. reflexivity. Qed.

Lemma check_records_with_defaults (data : list InvoiceRecord) :
  duplicate_ids (check_records (with_defaults <$> data)) = duplicate_ids (check_records data)
  ∧ math_errors (check_records (with_defaults <$> data)) = math_errors (check_records data)
  ∧ invoice_ids (check_records (with_defaults <$> data)) = invoice_ids (check_records data).
Proof.
  rewrite !check_records_spec. cbn [duplicate_ids math_errors invoice_ids].
  rewrite <- !list_fmap_compose.
  assert (inv_id_of ∘ with_defaults = inv_id_of) as -> by done.
  split; [done|]. split; [|done].
  induction data as [|record rest IH]; [done|].
  rewrite fmap_cons, !bind_cons, IH. by rewrite check_math_with_defaults.
Qed.

Lemma statistics_with_defaults (data : list InvoiceRecord) :
  statistics (with_defaults <$> data) = statistics data.
Proof. rewrite !statistics_counts, <- !list_fmap_compose. done. Qed.

Lemma ids_present_with_defaults (data : list InvoiceRecord) :
  ids_present (with_defaults <$> data).
Proof. unfold ids_present. rewrite Forall_fmap. apply Forall_true. by eexists. Qed.

(** What does hold of a record at index [i] without the key [vendor]: it
    gives exactly one [missing_fields] entry [(i, "vendor")] and adds one to the
    count of ["Unknown"] in [vendors].  The duplicate-ID check, the arithmetic
    check and the statistics read an absent key as its default ([""], [0],
    ["Unknown"]): they give what they give on the manifest with the defaults
    filled in, and so does every list and map of a returning run. *)
Lemma absent_vendor_is_unknown (data : list InvoiceRecord) (i : nat)
    (record : InvoiceRecord) :
  data !! i = Some record → vendor record = None →
  occurrences (i, "vendor") (missing_fields (check_records data)) = 1
  ∧ (statistics data).2 !! "Unknown"
    = Some (S (default 0 ((statistics (delete i data)).2 !! "Unknown")))
  ∧ duplicate_ids (check_records data) = duplicate_ids (check_records (with_defaults <$> data))
  ∧ math_errors (check_records data) = math_errors (check_records (with_defaults <$> data))
  ∧ statistics data = statistics (with_defaults <$> data)
  ∧ (∀ out,
       validate_manifest_run data = Ok out →
       occurrences (i, "vendor") (missing_fields (checks out)) = 1
       ∧ Report.vendors (returned out) !! "Unknown"
         = Some (S (default 0 ((statistics (delete i data)).2 !! "Unknown")))
       ∧ Report.total_records (returned out) = length data
       ∧ ∃ out',
           validate_manifest_run (with_defaults <$> data) = Ok out'
           ∧ duplicate_ids (checks out) = duplicate_ids (checks out')
           ∧ math_errors (checks out) = math_errors (checks out')
           ∧ sequence_gaps out = sequence_gaps out'
           ∧ currencies out = currencies out'
           ∧ vendors out = vendors out').
Proof.
  intros Hi Hvendor.
  assert (occurrences (i, "vendor") (missing_fields (check_records data)) = 1) as Hmissing.
  { rewrite (missing_fields_occurrences data i record "vendor" Hi).
    - unfold contains. simpl. by rewrite Hvendor.
    - apply (bool_decide_unpack _). vm_compute. exact I. }
  assert ((statistics data).2 !! "Unknown"
          = Some (S (default 0 ((statistics (delete i data)).2 !! "Unknown")))) as Hunknown.
  { rewrite !statistics_counts. cbn [snd].
    assert ((vendor_of <$> data) !! i = Some "Unknown") as Hkey.
    { rewrite list_lookup_fmap, Hi. simpl. unfold vendor_of. by rewrite Hvendor. }
    rewrite counts_lookup_default, counts_lookup, list_fmap_delete.
    rewrite decide_True by (by apply list_elem_of_lookup_2 in Hkey).
    rewrite (occurrences_delete _ _ _ _ Hkey), decide_True by done. done. }
  destruct (check_records_with_defaults data) as (Hdup & Hmath & _).
  split; [done|]. split; [done|]. split; [done|]. split; [done|].
  split; [by rewrite statistics_with_defaults|].
  intros out [Hids ->]%validate_manifest_run_inv.
  rewrite conclude_checks, conclude_returned, conclude_sequence_gaps.
  destruct (conclude_statistics data (check_records data) (inv_id_of <$> data)) as [-> ->].
  cbn [Report.vendors Report.total_records].
  split; [done|]. split; [done|]. split; [done|].
  eexists. split; [apply validate_manifest_run_Ok, ids_present_with_defaults|].
  rewrite conclude_checks, conclude_sequence_gaps.
  destruct (conclude_statistics (with_defaults <$> data)
              (check_records (with_defaults <$> data))
              (inv_id_of <$> (with_defaults <$> data))) as [-> ->].
  rewrite statistics_with_defaults, <- list_fmap_compose.
  done.
Qed.

(** The third record of the small manifest has no vendor. *)
Example absent_vendor_in_small_manifest :
  occurrences (2, "vendor") (missing_fields (check_records small_manifest)) = 1
  ∧ (statistics small_manifest).2 !! "Unknown"
    = Some (S (default 0 ((statistics (delete 2 small_manifest)).2 !! "Unknown"))).
Proof.
  destruct (absent_vendor_is_unknown small_manifest 2
              (without_vendor (invoice "INV-2025-0007" 250 50 0 300))
              eq_refl eq_refl) as (H1 & H2 & _).
  by split.
Defined.

(** A record with no amount but its subtotal is checked against the default 0
    and flagged: 25 against 0. *)
Example absent_amounts_read_as_zero :
  let record :=
    {| invoice_id := Some "INV-2025-0001"; vendor := Some "Contoso Ltd";
       currency := Some "USD"; invoice_date := None; due_date := None; terms := None;
       subtotal := Some 25%float; tax := None; shipping := None; total := None;
       file_path := None |} in
  math_errors (check_records [record])
  = [ {| err_inv_id := "INV-2025-0001";
         err_calculated_total := 25; err_recorded_total := 0;
         err_subtotal := 25; err_tax := 0; err_shipping := 0 |} ].
Proof. reflexivity. Qed.

(** C7: the sequence check does not read an absent [invoice_id] as its default.
    For a record at index [i] without the key [invoice_id], the first loop does
    what the claim says: it records the one entry [(i, "invoice_id")], its
    duplicate-ID check reads the ID as [""], and its arithmetic check runs on
    the record with [""] for the ID and 0 for every absent amount, adding the
    record's entry when the totals are more than 0.01 apart.  Line 86 then
    reads [record['invoice_id']]: the run raises [KeyError] and returns no
    report, so neither those entries nor, for a record that lacks [vendor]
    too, its count under ["Unknown"] is reported.  On the manifest with the
    defaults written in, the run returns. *)
Theorem absent_invoice_id_not_defaulted (data : list InvoiceRecord) (i : nat)
    (record : InvoiceRecord) :
  data !! i = Some record → invoice_id record = None →
  occurrences (i, "invoice_id") (missing_fields (check_records data)) = 1
  ∧ "" ∈ invoice_ids (check_records data)
  ∧ (¬ arithmetic_ok record →
     math_error_of record ∈ math_errors (check_records data)
     ∧ err_inv_id (math_error_of record) = ""
     ∧ err_recorded_total (math_error_of record) = round2 (default 0%float (total record)))
  ∧ validate_manifest_run data = Raise (KeyError "invoice_id")
  ∧ validate_manifest data = Raise (KeyError "invoice_id")
  ∧ (validate_manifest_io {| manifest := data; console := [] |}).1
    = Raise (KeyError "invoice_id")
  ∧ returns (validate_manifest (with_defaults <$> data)).
Proof.
  intros Hi Hid.
  assert (¬ ids_present data) as Hids.
  { intros Hall. eapply Forall_lookup_1 in Hall; [|done].
    rewrite Hid in Hall. by destruct Hall. }
  split.
  { rewrite (missing_fields_occurrences data i record "invoice_id" Hi).
    - unfold contains. simpl. by rewrite Hid.
    - apply (bool_decide_unpack _). vm_compute. exact I. }
  split.
  { rewrite check_records_spec. cbn [invoice_ids]. apply elem_of_list_to_set.
    apply list_elem_of_fmap. exists record. unfold inv_id_of. rewrite Hid.
    split; [done|]. by eapply list_elem_of_lookup_2. }
  split.
  { intros Hflag. split; [|by unfold math_error_of, inv_id_of; rewrite Hid].
    rewrite check_records_spec. cbn [math_errors]. apply list_elem_of_bind.
    exists record. split; [|by eapply list_elem_of_lookup_2].
    unfold arithmetic_ok, totals_difference in Hflag. unfold check_math.
    destruct (tolerance <? _)%float; [apply list_elem_of_here|done]. }
  split; [by apply validate_manifest_run_Raise|].
  split; [by apply validate_manifest_raises|].
  split.
  { unfold validate_manifest_io. cbn [manifest].
    by rewrite validate_manifest_run_Raise. }
  unfold returns, validate_manifest.
  rewrite (validate_manifest_run_Ok _ (ids_present_with_defaults data)). by eexists.
Qed.

(** A manifest of one record that lacks [invoice_id] and [vendor] and whose
    total is off by 5: the first loop records both fields and the wrong total
    under the ID [""], and the run raises. *)
Lemma absent_invoice_id_not_defaulted_witness :
  let record := without_vendor (without_invoice_id (invoice "INV-2025-0001" 100 20 5 130)) in
  missing_fields (check_records [record]) = [ (0, "invoice_id"); (0, "vendor") ]
  ∧ math_errors (check_records [record])
    = [ {| err_inv_id := ""; err_calculated_total := 125; err_recorded_total := 130;
           err_subtotal := 100; err_tax := 20; err_shipping := 5 |} ]
  ∧ validate_manifest [record] = Raise (KeyError "invoice_id")
  ∧ (∃ out, validate_manifest_run (with_defaults <$> [record]) = Ok out
            ∧ vendors out !! "Unknown" = Some 1
            ∧ length (missing_fields (checks out)) = 0).
Proof.
  split; [reflexivity|]. split; [reflexivity|]. split.
  - apply (absent_invoice_id_not_defaulted
             [ without_vendor (without_invoice_id (invoice "INV-2025-0001" 100 20 5 130)) ]
             0 _ eq_refl eq_refl).
  - eexists. split; [apply validate_manifest_run_Ok, ids_present_with_defaults|].
    split; vm_compute; reflexivity.
Defined.

(** ** Arithmetic check *)


Lemma SFcompare_refl (x : spec_float) : x ≠ S754_nan → SFcompare x x = Some Eq.
Proof.
  destruct x as [s|s| |s m e]; simpl; intros Hx; try done; try by destruct s.
  rewrite Z.compare_refl, Pos.compare_cont_refl. by destruct s.
Qed.


Lemma is_nan_Prim2SF (x : float) : is_nan x = true ↔ Prim2SF x = S754_nan.
Proof.
  unfold is_nan. rewrite FloatAxioms.eqb_spec. unfold SFeqb. split.
  - intros Hx. destruct (Prim2SF x) eqn:Hp; [..|done|];
      by rewrite SFcompare_refl in Hx.
  - by intros ->.
Qed.


(** With NaN on one side every comparison is false. *)
Lemma ltb_leb_nan (x y : float) :
  is_nan y = true → (x <? y)%float = false ∧ (y <=? x)%float = false.
Proof.
  intros Hy%is_nan_Prim2SF. rewrite FloatAxioms.ltb_spec, FloatAxioms.leb_spec. unfold SFltb, SFleb.
  rewrite Hy. by destruct (Prim2SF x).
Qed.

Lemma check_math_cases (record : InvoiceRecord) :
  check_math (inv_id_of record) record
  = if (tolerance <? totals_difference record)%float then [math_error_of record] else [].
Proof. reflexivity. Qed.


(** *** Rounded totals are numbers *)


Lemma round2_not_finite (x : float) :
  (∀ s m e, Prim2SF x ≠ S754_finite s m e) → round2 x = x.
Proof.
  intros Hx. unfold round2. destruct (Prim2SF x) as [s|s| |s m e] eqn:Hp; try done.
  by destruct (Hx s m e).
Qed.

Section float_rounding.

Local Open Scope Z_scope.


































End float_rounding.




(** ** The function with its console output *)


(** * Further properties of the validator *)

(** ** The returned dict of a returning run *)

Lemma validate_manifest_inv (data : list InvoiceRecord) (rep : Report.t) :
  validate_manifest data = Ok rep →
  ids_present data
  ∧ rep = returned (conclude data (check_records data) (inv_id_of <$> data)).
Proof.
  unfold validate_manifest. intros Hrep.
  destruct (validate_manifest_run data) as [out|e] eqn:Hrun; [|done].
  apply validate_manifest_run_inv in Hrun as [Hids ->]. by simplify_eq/=.
Qed.

Lemma validate_manifest_Ok (data : list InvoiceRecord) :
  ids_present data →
  validate_manifest data
  = Ok (returned (conclude data (check_records data) (inv_id_of <$> data))).
Proof. intros Hids. unfold validate_manifest. by rewrite validate_manifest_run_Ok. Qed.

(** ** Repeated IDs, with or without the key *)

Lemma occurrences_two_positions `{EqDecision A} (x : A) (l : list A) (i j : nat) :
  i < j → l !! i = Some x → l !! j = Some x → 2 ≤ occurrences x l.
Proof.
  intros Hij Hi Hj. rewrite (occurrences_delete x l j x Hj), decide_True by done.
  assert (x ∈ delete j l) as Hin%occurrences_pos; [|lia].
  apply list_elem_of_lookup. exists i. by rewrite list_lookup_delete_lt.
Qed.

Lemma occurrences_le_1_NoDup `{EqDecision A} (l : list A) :
  (∀ x, occurrences x l ≤ 1) ↔ NoDup l.
Proof.
  split.
  - induction l as [|y l IH]; intros Hocc; constructor.
    + intros Hin%occurrences_pos. specialize (Hocc y).
      rewrite occurrences_cons, decide_True in Hocc by done. lia.
    + apply IH. intros x. specialize (Hocc x). rewrite occurrences_cons in Hocc. lia.
  - intros Hnodup x. destruct (decide (x ∈ l)) as [Hin|Hin].
    + by rewrite occurrences_NoDup.
    + rewrite occurrences_not_elem by done. lia.
Qed.

Lemma repeats_empty_nil_iff (ids : list string) : repeats ∅ ids = [] ↔ NoDup ids.
Proof.
  rewrite <- occurrences_le_1_NoDup. split.
  - intros Hnil x. pose proof (repeats_occurrences ∅ ids x) as Hocc.
    rewrite Hnil, decide_False in Hocc by set_solver. rewrite occurrences_nil in Hocc. lia.
  - intros Hocc. destruct (repeats ∅ ids) as [|x dups] eqn:Hdups; [done|].
    pose proof (repeats_occurrences ∅ ids x) as Hx.
    rewrite Hdups, occurrences_cons, decide_True, decide_False in Hx by set_solver.
    specialize (Hocc x). lia.
Qed.

(** X1: [duplicate_ids] is empty exactly when the IDs of the records, [""]
    standing for an absent key, are pairwise distinct; an ID is reported exactly
    when it occurs at least twice; in particular two records without the key
    [invoice_id] collide on [""], which is then reported as a duplicate. *)
Theorem duplicate_ids_iff_repeated (data : list InvoiceRecord) :
  let ids := inv_id_of <$> data in
  let dups := duplicate_ids (check_records data) in
  (dups = [] ↔ NoDup ids)
  ∧ (∀ inv_id, inv_id ∈ dups ↔ 2 ≤ occurrences inv_id ids)
  ∧ (∀ i j r1 r2,
       i < j → data !! i = Some r1 → data !! j = Some r2 →
       invoice_id r1 = None → invoice_id r2 = None → "" ∈ dups).
Proof.
  cbv zeta. rewrite check_records_spec; cbn [duplicate_ids].
  assert (∀ inv_id, inv_id ∈ repeats ∅ (inv_id_of <$> data)
                    ↔ 2 ≤ occurrences inv_id (inv_id_of <$> data)) as Hiff.
  { intros inv_id. rewrite occurrences_pos, repeats_occurrences.
    rewrite decide_False by set_solver. lia. }
  split; [apply repeats_empty_nil_iff|]. split; [done|].
  intros i j r1 r2 Hij Hi Hj Hr1 Hr2. apply Hiff.
  apply (occurrences_two_positions _ _ i j Hij); rewrite list_lookup_fmap.
  - rewrite Hi. simpl. unfold inv_id_of. by rewrite Hr1.
  - rewrite Hj. simpl. unfold inv_id_of. by rewrite Hr2.
Qed.

(** In the small manifest exactly one ID is repeated. *)
Lemma duplicate_ids_iff_repeated_witness :
  "INV-2025-0007" ∈ duplicate_ids (check_records small_manifest)
  ∧ ¬ NoDup (inv_id_of <$> small_manifest).
Proof.
  destruct (duplicate_ids_iff_repeated small_manifest) as (Hnil & Hocc & _).
  split.
  - apply Hocc. vm_compute. lia.
  - intros Hnodup%Hnil. vm_compute in Hnodup. discriminate.
Defined.

(** ** Order and size of [missing_fields] *)

Lemma missing_rows_index (i : nat) (data : list InvoiceRecord) (e : nat * string) :
  e ∈ missing_rows i data → i ≤ e.1 < i + length data.
Proof.
  revert i. induction data as [|record rest IH]; intros i; simpl.
  - by intros ?%elem_of_nil.
  - rewrite elem_of_app, list_elem_of_fmap. intros [(field & -> & _)|Hin]; simpl; [lia|].
    apply IH in Hin. lia.
Qed.

Lemma filter_same_index (i : nat) (fields : list string) :
  (filter (λ e : nat * string, e.1 = i) (pair i <$> fields)).*2 = fields.
Proof.
  induction fields as [|field fields IH]; [done|].
  rewrite fmap_cons, filter_cons_True by done. rewrite fmap_cons. simpl. by rewrite IH.
Qed.

Lemma missing_rows_of_index (k i : nat) (data : list InvoiceRecord) :
  (filter (λ e, e.1 = k) (missing_rows i data)).*2
  = if decide (i ≤ k) then from_option absent_fields [] (data !! (k - i)) else [].
Proof.
  revert i. induction data as [|record rest IH]; intros i; simpl.
  - by case_decide.
  - rewrite filter_app, fmap_app, IH. destruct (decide (k = i)) as [->|Hne].
    + rewrite Nat.sub_diag, (decide_True (P := i ≤ i)), (decide_False (P := S i ≤ i)) by lia.
      simpl. by rewrite app_nil_r, filter_same_index.
    + assert (filter (λ e : nat * string, e.1 = k) (pair i <$> absent_fields record) = [])
        as ->.
      { apply filter_nil_Forall, Forall_forall. intros e (field & -> & _)%list_elem_of_fmap.
        simpl. congruence. }
      simpl. destruct (decide (i ≤ k)).
      * rewrite decide_True by lia. by replace (k - i) with (S (k - S i)) by lia.
      * by rewrite decide_False by lia.
Qed.

Lemma missing_rows_sorted (i : nat) (data : list InvoiceRecord) :
  StronglySorted (λ e1 e2 : nat * string, e1.1 ≤ e2.1) (missing_rows i data).
Proof.
  revert i. induction data as [|record rest IH]; intros i; simpl; [constructor|].
  apply StronglySorted_app_2; [| | apply IH].
  - intros e1 e2 (f & -> & _)%list_elem_of_fmap Hin%missing_rows_index. simpl. lia.
  - induction (absent_fields record) as [|field fields IHf]; [constructor|].
    rewrite fmap_cons. constructor; [done|].
    apply Forall_forall. by intros e (f & -> & _)%list_elem_of_fmap.
Qed.

Lemma missing_rows_length (i : nat) (data : list InvoiceRecord) :
  length (missing_rows i data) = sum_list_with (λ record, length (absent_fields record)) data.
Proof.
  revert i. induction data as [|record rest IH]; intros i; simpl; [done|].
  by rewrite length_app, length_fmap, IH.
Qed.

(** X2: the entries of [missing_fields] come in the order of the records, no
    entry twice, every index is the index of a record, and the fields reported
    for one record are those it lacks, in the order of [required_fields]. *)
Theorem missing_fields_in_record_order (data : list InvoiceRecord) :
  let missing := missing_fields (check_records data) in
  StronglySorted (λ e1 e2 : nat * string, e1.1 ≤ e2.1) missing
  ∧ NoDup missing
  ∧ (∀ e, e ∈ missing → e.1 < length data)
  ∧ (∀ i record,
       data !! i = Some record →
       (filter (λ e, e.1 = i) missing).*2 = absent_fields record
       ∧ absent_fields record `sublist_of` required_fields).
Proof.
  cbv zeta. rewrite check_records_spec; cbn [missing_fields].
  split; [apply missing_rows_sorted|]. split; [|split].
  - apply occurrences_le_1_NoDup. intros [k field].
    rewrite occurrences_missing_rows, Nat.sub_0_r, decide_True by lia.
    destruct (data !! k) as [record|]; simpl; [|lia].
    rewrite occurrences_absent_fields. repeat case_match; lia.
  - intros e Hin%missing_rows_index. lia.
  - intros i record Hi.
    rewrite missing_rows_of_index, Nat.sub_0_r, decide_True, Hi by lia.
    split; [done|]. apply sublist_filter.
Qed.

(** The record at index 2 of the small manifest lacks only [vendor]. *)
Lemma missing_fields_in_record_order_witness :
  (filter (λ e, e.1 = 2) (missing_fields (check_records small_manifest))).*2 = [ "vendor" ].
Proof.
  destruct (missing_fields_in_record_order small_manifest) as (_ & _ & _ & Hrecord).
  destruct (Hrecord 2 (without_vendor (invoice "INV-2025-0007" 250 50 0 300)) eq_refl)
    as [-> _].
  reflexivity.
Defined.

(** ** Bounds on the counts *)

Lemma absent_fields_length (record : InvoiceRecord) : length (absent_fields record) ≤ 11.
Proof. unfold absent_fields. etrans; [apply length_filter|done]. Qed.

Lemma check_math_length (inv_id : string) (record : InvoiceRecord) :
  length (check_math inv_id record) ≤ 1.
Proof. unfold check_math. case_match; cbn [length]; lia. Qed.

Lemma math_errors_length (data : list InvoiceRecord) :
  length (data ≫= λ record, check_math (inv_id_of record) record) ≤ length data.
Proof.
  induction data as [|record rest IH]; [done|].
  rewrite bind_cons, length_app. cbn [length].
  pose proof (check_math_length (inv_id_of record) record). lia.
Qed.

Lemma missing_rows_length_bound (i : nat) (data : list InvoiceRecord) :
  length (missing_rows i data) ≤ 11 * length data.
Proof.
  revert i. induction data as [|record rest IH]; intros i; simpl; [lia|].
  rewrite length_app, length_fmap.
  pose proof (absent_fields_length record). specialize (IH (S i)). lia.
Qed.

Lemma length_filter_complement {A} (P : A → Prop) `{∀ x, Decision (P x)} (l : list A) :
  length (filter P l) + length (filter (λ x, ¬ P x) l) = length l.
Proof. by rewrite <- length_app, filter_app_complement. Qed.

(** The gaps and the expected IDs that occur add up to the 120 expected IDs. *)
Lemma check_sequence_length (actual : list string) :
  length (check_sequence actual)
  + size ((list_to_set actual : gset string) ∩ list_to_set expected_ids) = 120.
Proof.
  rewrite check_sequence_filter.
  assert ((list_to_set actual : gset string) ∩ list_to_set expected_ids
          = list_to_set (filter (λ exp_id, exp_id ∈ actual) expected_ids)) as ->.
  { apply set_eq. intros x.
    rewrite elem_of_intersection, !elem_of_list_to_set, list_elem_of_filter. tauto. }
  rewrite size_list_to_set by apply NoDup_filter, expected_ids_NoDup.
  pose proof (length_filter_complement (λ exp_id, exp_id ∈ actual) expected_ids) as Hlen.
  replace (length expected_ids) with 120 in Hlen by (by vm_compute). lia.
Qed.

Lemma list_to_set_size_pos (ids : list string) :
  ids ≠ [] → 0 < size (list_to_set ids : gset string).
Proof.
  destruct ids as [|x ids]; [done|]. intros _.
  assert (size (list_to_set (x :: ids) : gset string) ≠ 0); [|lia].
  rewrite size_empty_iff, list_to_set_cons. set_solver.
Qed.

(** X3: in the dict that a run returns, [missing_fields] is at most eleven times
    [total_records], [math_errors] at most [total_records], [duplicate_ids] is
    [total_records] minus the number of distinct IDs (so less than
    [total_records] for a non-empty manifest), and [sequence_gaps] is 120 minus
    the number of expected IDs that occur in the manifest (so at most 120). *)
Theorem report_counts_bounded (data : list InvoiceRecord) (rep : Report.t) :
  validate_manifest data = Ok rep →
  let ids : gset string := list_to_set (inv_id_of <$> data) in
  Report.total_records rep = length data
  ∧ Report.missing_fields rep ≤ 11 * Report.total_records rep
  ∧ Report.math_errors rep ≤ Report.total_records rep
  ∧ Report.duplicate_ids rep + size ids = Report.total_records rep
  ∧ (data ≠ [] → Report.duplicate_ids rep < Report.total_records rep)
  ∧ Report.sequence_gaps rep + size (ids ∩ list_to_set expected_ids) = 120
  ∧ Report.sequence_gaps rep ≤ 120.
Proof.
  intros [_ ->]%validate_manifest_inv. cbv zeta.
  rewrite conclude_returned, check_records_spec.
  cbn [Report.total_records Report.missing_fields Report.math_errors
       Report.duplicate_ids Report.sequence_gaps
       missing_fields math_errors duplicate_ids].
  pose proof (repeats_length ∅ (inv_id_of <$> data)) as Hdup.
  rewrite (left_id_L ∅ (∪)), size_empty, length_fmap in Hdup.
  pose proof (list_to_set_size_pos (inv_id_of <$> data)) as Hpos.
  pose proof (missing_rows_length_bound 0 data) as Hmissing.
  pose proof (math_errors_length data) as Hmath.
  assert (data ≠ [] → inv_id_of <$> data ≠ []) as Hne by (by destruct data).
  pose proof (check_sequence_length (inv_id_of <$> data)) as Hgaps.
  revert Hdup Hpos Hmissing Hmath Hgaps Hne.
  generalize (length (check_sequence (inv_id_of <$> data))).
  generalize (size ((list_to_set (inv_id_of <$> data) : gset string)
                    ∩ list_to_set expected_ids)).
  generalize (size (list_to_set (inv_id_of <$> data) : gset string)).
  generalize (length (repeats ∅ (inv_id_of <$> data))).
  generalize (length (missing_rows 0 data)).
  generalize (length (data ≫= λ record, check_math (inv_id_of record) record)).
  intros nmath nmissing ndup ndistinct ncommon ngaps Hdup Hpos Hmissing Hmath Hgaps Hne.
  repeat split; try lia. intros Hdata. specialize (Hpos (Hne Hdata)). lia.
Qed.

(** The small manifest: 4 records, 3 distinct IDs, all among the expected. *)
Lemma report_counts_bounded_witness :
  ∃ rep, validate_manifest small_manifest = Ok rep
    ∧ Report.duplicate_ids rep = 1 ∧ Report.sequence_gaps rep = 117
    ∧ Report.sequence_gaps rep ≤ 120.
Proof.
  assert (ids_present small_manifest) as Hids
    by (apply (bool_decide_unpack _); vm_compute; exact I).
  eexists. split; [apply (validate_manifest_Ok _ Hids)|].
  split; [by vm_compute|]. split; [by vm_compute|].
  exact (proj2 (proj2 (proj2 (proj2 (proj2 (proj2
    (report_counts_bounded small_manifest _ (validate_manifest_Ok _ Hids)))))))).
Defined.

(** ** Concatenating manifests *)

Lemma missing_rows_app (i : nat) (data1 data2 : list InvoiceRecord) :
  missing_rows i (data1 ++ data2)
  = missing_rows i data1 ++ missing_rows (i + length data1) data2.
Proof.
  revert i. induction data1 as [|record rest IH]; intros i; simpl.
  - by rewrite Nat.add_0_r.
  - rewrite IH, <- app_assoc. by replace (S i + length rest) with (i + S (length rest)) by lia.
Qed.

Lemma missing_rows_shift (n i : nat) (data : list InvoiceRecord) :
  missing_rows (n + i) data = prod_map (λ k, n + k) id <$> missing_rows i data.
Proof.
  revert i. induction data as [|record rest IH]; intros i; simpl; [done|].
  rewrite fmap_app, <- list_fmap_compose. f_equal.
  replace (S (n + i)) with (n + S i) by lia. apply IH.
Qed.

Lemma repeats_app (seen : gset string) (ids1 ids2 : list string) :
  repeats seen (ids1 ++ ids2)
  = repeats seen ids1 ++ repeats (seen ∪ list_to_set ids1) ids2.
Proof.
  revert seen. induction ids1 as [|x rest IH]; intros seen; simpl.
  - by rewrite (right_id_L ∅ (∪)).
  - destruct (decide (x ∈ seen)) as [Hx|Hx]; rewrite IH; simpl.
    + replace (seen ∪ ({[x]} ∪ list_to_set rest)) with (seen ∪ list_to_set rest)
        by set_solver.
      done.
    + replace (seen ∪ ({[x]} ∪ list_to_set rest))
        with ({[x]} ∪ seen ∪ list_to_set rest) by set_solver.
      done.
Qed.

Lemma repeats_mono (seen seen' : gset string) (ids : list string) :
  seen ⊆ seen' → repeats seen ids `sublist_of` repeats seen' ids.
Proof.
  revert seen seen'. induction ids as [|x rest IH]; intros seen seen' Hsub; simpl; [done|].
  destruct (decide (x ∈ seen)) as [Hx|Hx].
  - rewrite decide_True by set_solver. apply sublist_skip. by apply IH.
  - destruct (decide (x ∈ seen')) as [Hx'|Hx'].
    + apply sublist_cons. apply IH. set_solver.
    + apply IH. set_solver.
Qed.

Lemma check_sequence_app (actual1 actual2 : list string) :
  check_sequence (actual1 ++ actual2)
  = filter (λ exp_id, exp_id ∉ actual2) (check_sequence actual1).
Proof.
  rewrite !check_sequence_filter, list_filter_filter.
  apply list_filter_iff. intros x. rewrite elem_of_app. tauto.
Qed.

Lemma counts_app (keys1 keys2 : list string) (k : string) :
  default 0 (counts (keys1 ++ keys2) !! k)
  = default 0 (counts keys1 !! k) + default 0 (counts keys2 !! k).
Proof. by rewrite !counts_lookup_default, occurrences_app. Qed.

(** X4: validating the concatenation of two manifests, from the results on
    each: the arithmetic errors are those of the first followed by those of the
    second; the missing-field entries likewise, with the indices of the second
    shifted by the length of the first; the duplicates are those of the first
    followed by the IDs of the second that repeat an ID of the first or an
    earlier one of the second (so at least those of both); the gaps are the
    gaps common to both; and every currency and vendor count is the sum of the
    two counts. *)
Theorem check_records_app (data1 data2 : list InvoiceRecord) :
  let st1 := check_records data1 in
  let st2 := check_records data2 in
  let st := check_records (data1 ++ data2) in
  math_errors st = math_errors st1 ++ math_errors st2
  ∧ missing_fields st
    = missing_fields st1 ++ (prod_map (λ k, length data1 + k) id <$> missing_fields st2)
  ∧ duplicate_ids st
    = duplicate_ids st1 ++ repeats (invoice_ids st1) (inv_id_of <$> data2)
  ∧ duplicate_ids st1 ++ duplicate_ids st2 `sublist_of` duplicate_ids st
  ∧ invoice_ids st = invoice_ids st1 ∪ invoice_ids st2
  ∧ check_sequence (inv_id_of <$> data1 ++ data2)
    = filter (λ exp_id, exp_id ∈ check_sequence (inv_id_of <$> data2))
        (check_sequence (inv_id_of <$> data1))
  ∧ (∀ k, default 0 ((statistics (data1 ++ data2)).1 !! k)
          = default 0 ((statistics data1).1 !! k) + default 0 ((statistics data2).1 !! k))
  ∧ (∀ k, default 0 ((statistics (data1 ++ data2)).2 !! k)
          = default 0 ((statistics data1).2 !! k) + default 0 ((statistics data2).2 !! k)).
Proof.
  cbv zeta. rewrite !check_records_spec, !statistics_counts.
  cbn [math_errors missing_fields duplicate_ids invoice_ids fst snd].
  rewrite !fmap_app, bind_app, missing_rows_app, repeats_app, list_to_set_app_L.
  rewrite (left_id_L ∅ (∪)). simpl.
  rewrite <- (Nat.add_0_r (length data1)) at 1. rewrite missing_rows_shift.
  split; [done|]. split; [done|]. split; [done|]. split; [|split; [done|split]].
  - apply sublist_app; [done|]. apply repeats_mono. set_solver.
  - rewrite check_sequence_app. rewrite (check_sequence_filter (inv_id_of <$> data2)).
    assert (∀ x, x ∈ check_sequence (inv_id_of <$> data1) → x ∈ expected_ids) as Hexp.
    { intros x. rewrite check_sequence_filter, list_elem_of_filter. tauto. }
    induction (check_sequence (inv_id_of <$> data1)) as [|x gaps IH]; [done|].
    rewrite !filter_cons, IH by (intros y Hy; apply Hexp; by right).
    assert (x ∈ expected_ids) as Hx by (apply Hexp; by left).
    repeat case_decide; try done.
    + rewrite list_elem_of_filter in *. tauto.
    + rewrite list_elem_of_filter in *. tauto.
  - split; intros k; apply counts_app.
Qed.

(** ** The order of the records *)

Lemma check_sequence_ext (actual1 actual2 : list string) :
  (∀ x, x ∈ actual1 ↔ x ∈ actual2) → check_sequence actual1 = check_sequence actual2.
Proof.
  intros Hsame. rewrite !check_sequence_filter. apply list_filter_iff.
  intros x. by rewrite Hsame.
Qed.

Lemma occurrences_Permutation `{EqDecision A} (x : A) (l1 l2 : list A) :
  l1 ≡ₚ l2 → occurrences x l1 = occurrences x l2.
Proof. intros Hperm. unfold occurrences. by rewrite Hperm. Qed.

Lemma counts_Permutation (keys1 keys2 : list string) :
  keys1 ≡ₚ keys2 → counts keys1 = counts keys2.
Proof.
  intros Hperm. apply map_eq. intros k. rewrite !counts_lookup.
  rewrite (occurrences_Permutation k _ _ Hperm).
  destruct (decide (k ∈ keys1)) as [Hin|Hin].
  - rewrite decide_True; [done|]. by rewrite <- Hperm.
  - rewrite decide_False; [done|]. by rewrite <- Hperm.
Qed.

Lemma repeats_empty_length (ids : list string) :
  length (repeats ∅ ids) = length ids - size (list_to_set ids : gset string).
Proof.
  pose proof (repeats_length ∅ ids) as Hlen.
  rewrite (left_id_L ∅ (∪)), size_empty in Hlen. lia.
Qed.

Lemma truthy_length {A} (l : list A) : truthy l = negb (length l =? 0).
Proof. by destruct l. Qed.

(** X5: the returned dict does not depend on the order of the records: two
    manifests with the same records in different orders give the same counts,
    the same frequency maps and the same verdict, or both raise [KeyError]. *)
Theorem report_order_independent (data1 data2 : list InvoiceRecord) :
  data1 ≡ₚ data2 → validate_manifest data1 = validate_manifest data2.
Proof.
  intros Hperm. destruct (decide (ids_present data1)) as [Hids|Hids].
  - assert (ids_present data2) as Hids2 by (unfold ids_present; by rewrite <- Hperm).
    rewrite !validate_manifest_Ok, !conclude_returned, !check_records_spec by done.
    cbn [missing_fields duplicate_ids math_errors].
    assert (inv_id_of <$> data1 ≡ₚ inv_id_of <$> data2) as Hidsperm by (by rewrite Hperm).
    rewrite !statistics_counts, !truthy_length. cbn [fst snd].
    rewrite !missing_rows_length, !repeats_empty_length.
    rewrite (check_sequence_ext (inv_id_of <$> data1) (inv_id_of <$> data2))
      by (intros x; by rewrite Hidsperm).
    rewrite (counts_Permutation (currency_of <$> data1) (currency_of <$> data2))
      by (by rewrite Hperm).
    rewrite (counts_Permutation (vendor_of <$> data1) (vendor_of <$> data2))
      by (by rewrite Hperm).
    assert (length (data1 ≫= λ record, check_math (inv_id_of record) record)
            = length (data2 ≫= λ record, check_math (inv_id_of record) record)) as ->
      by (by rewrite Hperm).
    rewrite !length_fmap.
    rewrite (Permutation_length Hperm).
    rewrite (list_to_set_perm_L _ _ Hidsperm).
    assert (sum_list_with (λ record, length (absent_fields record)) data1
            = sum_list_with (λ record, length (absent_fields record)) data2) as ->
      by (by rewrite Hperm).
    done.
  - assert (¬ ids_present data2) as Hids2 by (unfold ids_present; by rewrite <- Hperm).
    by rewrite !validate_manifest_raises.
Qed.

Lemma report_order_independent_witness :
  validate_manifest (reverse small_manifest) = validate_manifest small_manifest.
Proof.
  apply (report_order_independent (reverse small_manifest) small_manifest).
  apply reverse_Permutation.
Defined.

(** ** What a passing manifest is *)

Lemma check_sequence_nil_iff (actual : list string) :
  check_sequence actual = [] ↔ expected_ids ⊆ actual.
Proof.
  rewrite check_sequence_filter, filter_nil_Forall, Forall_forall.
  split; intros Hall x Hx.
  - destruct (decide (x ∈ actual)) as [|Hnot]; [done|]. by destruct (Hall x Hx).
  - intros Hnot. by apply Hnot, Hall.
Qed.

Lemma math_errors_nil_iff (data : list InvoiceRecord) :
  (data ≫= λ record, check_math (inv_id_of record) record) = []
  ↔ Forall arithmetic_ok data.
Proof.
  induction data as [|record rest IH]; [by rewrite Forall_nil|].
  rewrite bind_cons, Forall_cons, <- IH, check_math_cases. unfold arithmetic_ok.
  destruct (tolerance <? totals_difference record)%float; simpl; [|tauto].
  split; [done|]. by intros [? _].
Qed.

Lemma has_all_fields_ids_present (data : list InvoiceRecord) :
  Forall has_all_fields data → ids_present data.
Proof. intros Hall. eapply Forall_impl; [exact Hall|]. by intros record [? _]. Qed.

Lemma passed_iff_sound (data : list InvoiceRecord) :
  ids_present data →
  Report.passed (returned (conclude data (check_records data) (inv_id_of <$> data))) = true
  ↔ sound_manifest data.
Proof.
  intros Hids. rewrite conclude_returned, check_records_spec.
  cbn [Report.passed missing_fields duplicate_ids math_errors].
  rewrite negb_true_iff, !orb_false_iff, !truthy_false.
  rewrite missing_rows_nil, repeats_empty_nil_iff, math_errors_nil_iff,
    check_sequence_nil_iff.
  unfold sound_manifest. tauto.
Qed.

(** X6: the run returns a dict with [passed = True] exactly for the manifests
    in which every record has the eleven keys, the IDs are pairwise distinct,
    every expected ID occurs, and no record has its rounded totals more than
    [0.01] apart.  Such a manifest has at least 120 records; it may have more,
    since IDs beyond the expected ones are not looked at. *)
Theorem passed_iff_sound_manifest (data : list InvoiceRecord) :
  ((∃ rep, validate_manifest data = Ok rep ∧ Report.passed rep = true)
   ↔ sound_manifest data)
  ∧ (sound_manifest data → 120 ≤ length data).
Proof.
  split; [split|].
  - intros (rep & [Hids ->]%validate_manifest_inv & Hpassed). by apply passed_iff_sound.
  - intros Hsound. pose proof Hsound as (Hall%has_all_fields_ids_present & _).
    eexists. split; [by apply validate_manifest_Ok|]. by apply passed_iff_sound.
  - intros (_ & _ & Hsub & _).
    assert (expected_ids ⊆+ inv_id_of <$> data) as Hlen%submseteq_length
      by (apply NoDup_submseteq; [apply expected_ids_NoDup|done]).
    rewrite length_fmap in Hlen. by replace (length expected_ids) with 120 in Hlen.
Qed.

(** The full manifest is sound, hence passes and has at least 120 records. *)
Lemma passed_iff_sound_manifest_witness :
  (∃ rep, validate_manifest full_manifest = Ok rep ∧ Report.passed rep = true)
  ∧ 120 ≤ length full_manifest.
Proof.
  assert (sound_manifest full_manifest) as Hsound.
  { assert (ids_present full_manifest) as Hids
      by (apply (bool_decide_unpack _); vm_compute; exact I).
    apply (passed_iff_sound _ Hids). vm_compute. reflexivity. }
  destruct (passed_iff_sound_manifest full_manifest) as [Hiff Hlen].
  split; [by apply Hiff | by apply Hlen].
Defined.


(** ** Records beyond the expected ones *)

Lemma filter_Forall_id {A} (P : A → Prop) `{∀ x, Decision (P x)} (l : list A) :
  Forall P l → filter P l = l.
Proof.
  induction 1 as [|x l Hx _ IH]; [done|]. by rewrite filter_cons_True, IH.
Qed.

Lemma check_sequence_expected (actual : list string) (exp_id : string) :
  exp_id ∈ check_sequence actual → exp_id ∈ expected_ids.
Proof. rewrite check_sequence_filter, list_elem_of_filter. tauto. Qed.

Lemma sound_manifest_snoc (data : list InvoiceRecord) (record : InvoiceRecord) :
  has_all_fields record →
  inv_id_of record ∉ (inv_id_of <$> data) →
  arithmetic_ok record →
  sound_manifest data → sound_manifest (data ++ [record]).
Proof.
  intros Hall Hfresh Hmath (Hfields & Hnodup & Hexp & Harith).
  unfold sound_manifest. rewrite !Forall_app, !Forall_singleton, fmap_app, NoDup_app.
  split; [done|]. split; [|split; [|done]].
  - split; [done|]. split; [|apply NoDup_singleton].
    intros x Hx ->%list_elem_of_singleton. done.
  - intros x Hx. apply elem_of_app. left. by apply Hexp.
Qed.

(** X7: neither the form nor the range of an ID is checked.  Appending to a
    manifest a record that has the eleven keys, an ID (any string) that no
    record of the manifest has, and totals within tolerance adds no entry to
    [missing_fields], [duplicate_ids] or [math_errors], and changes
    [sequence_gaps] only by removing that ID if it was a gap; so a manifest
    that passes still passes, with more than the 120 expected records. *)
Theorem extra_record_not_reported (data : list InvoiceRecord) (record : InvoiceRecord) :
  has_all_fields record →
  inv_id_of record ∉ (inv_id_of <$> data) →
  arithmetic_ok record →
  let st := check_records data in
  let st' := check_records (data ++ [record]) in
  missing_fields st' = missing_fields st
  ∧ duplicate_ids st' = duplicate_ids st
  ∧ math_errors st' = math_errors st
  ∧ check_sequence (inv_id_of <$> data ++ [record])
    = filter (λ exp_id, exp_id ≠ inv_id_of record) (check_sequence (inv_id_of <$> data))
  ∧ (inv_id_of record ∉ expected_ids →
     check_sequence (inv_id_of <$> data ++ [record]) = check_sequence (inv_id_of <$> data))
  ∧ (sound_manifest data → sound_manifest (data ++ [record])).
Proof.
  intros Hall Hfresh Hmath. cbv zeta. rewrite !check_records_spec.
  cbn [missing_fields duplicate_ids math_errors].
  rewrite missing_rows_app, fmap_app, repeats_app, bind_app, check_sequence_app.
  rewrite (left_id_L ∅ (∪)). cbn [missing_rows fmap list_fmap repeats mbind list_bind].
  apply absent_fields_nil in Hall as Habsent. rewrite Habsent.
  rewrite decide_False by (by rewrite elem_of_list_to_set).
  rewrite check_math_cases. unfold arithmetic_ok in Hmath. rewrite Hmath.
  cbn [fmap list_fmap app]. rewrite !app_nil_r.
  assert (filter (λ exp_id, exp_id ∉ [inv_id_of record])
            (check_sequence (inv_id_of <$> data))
          = filter (λ exp_id, exp_id ≠ inv_id_of record)
              (check_sequence (inv_id_of <$> data))) as ->.
  { apply list_filter_iff. intros x. by rewrite list_elem_of_singleton. }
  split; [reflexivity|]. split; [reflexivity|]. split; [reflexivity|].
  split; [reflexivity|]. split.
  - intros Hout. apply filter_Forall_id, Forall_forall.
    intros x Hx%check_sequence_expected ->. by apply Hout.
  - by apply sound_manifest_snoc.
Qed.

(** A 121st invoice with an ID of another form: the full manifest still passes. *)
Lemma extra_record_not_reported_witness :
  sound_manifest (full_manifest ++ [ invoice "2024/A-17" 10 2 0 12 ])
  ∧ check_sequence (inv_id_of <$> full_manifest ++ [ invoice "2024/A-17" 10 2 0 12 ])
    = check_sequence (inv_id_of <$> full_manifest).
Proof.
  assert (ids_present full_manifest) as Hids
    by (apply (bool_decide_unpack _); vm_compute; exact I).
  assert (sound_manifest full_manifest) as Hsound
    by (apply (passed_iff_sound _ Hids); vm_compute; reflexivity).
  assert (has_all_fields (invoice "2024/A-17" 10 2 0 12)) as Hall
    by (repeat split; by eexists).
  assert (inv_id_of (invoice "2024/A-17" 10 2 0 12) ∉ (inv_id_of <$> full_manifest))
    as Hfresh by (apply (bool_decide_unpack _); vm_compute; exact I).
  assert (arithmetic_ok (invoice "2024/A-17" 10 2 0 12)) as Hmath by reflexivity.
  destruct (extra_record_not_reported full_manifest (invoice "2024/A-17" 10 2 0 12)
              Hall Hfresh Hmath) as (_ & _ & _ & _ & Hgaps & Hkeep).
  split; [by apply Hkeep|]. apply Hgaps.
  apply (bool_decide_unpack _). vm_compute. exact I.
Defined.

(** ** Amounts that the arithmetic check lets through *)

Lemma Prim2SF_tolerance :
  Prim2SF tolerance = S754_finite false 5764607523034235 (-59).
Proof. reflexivity. Qed.

(** A difference that is zero or NaN does not exceed the tolerance. *)
Lemma ltb_tolerance_abs (d : float) :
  (∃ s, Prim2SF d = S754_zero s) ∨ Prim2SF d = S754_nan →
  (tolerance <? abs d)%float = false.
Proof.
  intros Hd. rewrite FloatAxioms.ltb_spec, abs_spec, Prim2SF_tolerance.
  by destruct Hd as [[s ->]| ->].
Qed.

Lemma SFsub_diag (x : spec_float) :
  SF64sub x x = S754_zero false ∨ SF64sub x x = S754_nan.
Proof.
  destruct x as [[]|[]| |s m e]; simpl; auto.
  left. unfold SF64sub, SFsub. by rewrite Z.sub_diag.
Qed.

Lemma SFeqb_true (x y : spec_float) :
  SFeqb x y = true →
  x = y ∨ ((∃ s, x = S754_zero s) ∧ ∃ s, y = S754_zero s).
Proof.
  unfold SFeqb.
  destruct x as [sx|sx| |sx mx ex], y as [sy|sy| |sy my ey]; simpl; try done.
  all: try (intros _; right; by eauto).
  all: destruct sx, sy; simpl; try done; try (by left).
  all: destruct (ex ?= ey)%Z eqn:He; try done.
  all: apply Z.compare_eq in He as ->.
  all: destruct (Pos.compare_cont Eq mx my) eqn:Hm; try done.
  all: apply Pos.compare_eq in Hm as ->; by left.
Qed.

Lemma check_math_nil_iff (record : InvoiceRecord) :
  check_math (inv_id_of record) record = [] ↔ arithmetic_ok record.
Proof.
  rewrite check_math_cases. unfold arithmetic_ok.
  by destruct (tolerance <? totals_difference record)%float.
Qed.

(** X8: a record whose total equals the sum of its parts ([subtotal + tax +
    shipping == total] in floating point, absent amounts being 0) never gets a
    math error, whatever the amounts are, infinite ones included. *)
Theorem equal_totals_not_flagged (record : InvoiceRecord) :
  let subtotal := default 0%float (subtotal record) in
  let tax := default 0%float (tax record) in
  let shipping := default 0%float (shipping record) in
  let total := default 0%float (total record) in
  (subtotal + tax + shipping =? total)%float = true →
  check_math (inv_id_of record) record = []
  ∧ ∀ i st, math_errors (check_record i record st) = math_errors st.
Proof.
  cbv zeta. intros Heq.
  assert (check_math (inv_id_of record) record = []) as Hnil.
  { apply check_math_nil_iff. unfold arithmetic_ok, totals_difference.
    apply ltb_tolerance_abs. rewrite sub_spec.
    rewrite FloatAxioms.eqb_spec in Heq. apply SFeqb_true in Heq as [Hsame|[[s1 H1] [s2 H2]]].
    - apply Prim2SF_inj in Hsame as ->.
      destruct (SFsub_diag (Prim2SF (round2 (default 0%float (total record)))))
        as [->| ->]; eauto.
    - rewrite !round2_not_finite by congruence. rewrite H1, H2.
      left. destruct s1, s2; simpl; eauto. }
  split; [done|]. intros i st. unfold check_record. cbn [math_errors].
  fold (inv_id_of record). by rewrite Hnil, app_nil_r.
Qed.

(** Totals that agree exactly, and infinite totals that agree. *)
Lemma equal_totals_not_flagged_witness :
  check_math "INV-2025-0001" (invoice "INV-2025-0001" 100 20 5 125) = []
  ∧ check_math "INV-2025-0001" infinite_invoice = [].
Proof.
  split.
  - apply (equal_totals_not_flagged (invoice "INV-2025-0001" 100 20 5 125)). reflexivity.
  - apply (equal_totals_not_flagged infinite_invoice). reflexivity.
Defined.

Lemma add_nan (x y : float) :
  is_nan x = true ∨ is_nan y = true → is_nan (x + y) = true.
Proof.
  rewrite !is_nan_Prim2SF, add_spec.
  intros [-> | ->]; [done|]. by destruct (Prim2SF x).
Qed.

Lemma sub_nan (x y : float) :
  is_nan x = true ∨ is_nan y = true → is_nan (x - y) = true.
Proof.
  rewrite !is_nan_Prim2SF, sub_spec.
  intros [-> | ->]; [done|]. by destruct (Prim2SF x).
Qed.

Lemma round2_nan (x : float) : is_nan x = true → is_nan (round2 x) = true.
Proof.
  intros Hx. rewrite round2_not_finite; [done|].
  apply is_nan_Prim2SF in Hx. congruence.
Qed.

(** X9: a record with a NaN among its four amounts never gets a math error:
    the difference of its totals is NaN, and NaN is not [> 0.01]. *)
Theorem nan_amount_not_flagged (record : InvoiceRecord) (amount : float) :
  amount ∈ [ default 0%float (subtotal record); default 0%float (tax record);
             default 0%float (shipping record); default 0%float (total record) ] →
  is_nan amount = true →
  is_nan (totals_difference record) = true
  ∧ check_math (inv_id_of record) record = []
  ∧ ∀ i st, math_errors (check_record i record st) = math_errors st.
Proof.
  intros Hin Hnan.
  assert (is_nan (totals_difference record) = true) as Hdiff.
  { unfold totals_difference. apply is_nan_Prim2SF. rewrite abs_spec.
    assert (is_nan (round2 (default 0%float (subtotal record)
                            + default 0%float (tax record)
                            + default 0%float (shipping record))
                    - round2 (default 0%float (total record))) = true)
      as ->%is_nan_Prim2SF; [|done].
    apply sub_nan. rewrite !elem_of_cons in Hin.
    destruct Hin as [<-|[<-|[<-|[<-|[]%elem_of_nil]]]].
    - left. apply round2_nan, add_nan. left. apply add_nan. by left.
    - left. apply round2_nan, add_nan. left. apply add_nan. by right.
    - left. apply round2_nan, add_nan. by right.
    - right. by apply round2_nan. }
  assert (check_math (inv_id_of record) record = []) as Hnil.
  { rewrite check_math_cases. by destruct (ltb_leb_nan tolerance _ Hdiff) as [-> _]. }
  split; [done|]. split; [done|]. intros i st. unfold check_record. cbn [math_errors].
  fold (inv_id_of record). by rewrite Hnil, app_nil_r.
Qed.

(** [{"subtotal": 100.0, "tax": NaN, "shipping": 5.0, "total": 125.0}] *)
Lemma nan_amount_not_flagged_witness :
  check_math "INV-2025-0001" (invoice "INV-2025-0001" 100 nan 5 125) = [].
Proof.
  apply (nan_amount_not_flagged (invoice "INV-2025-0001" 100 nan 5 125) nan).
  - rewrite !elem_of_cons. right. by left.
  - reflexivity.
Defined.

(** ** The entries of [math_errors] *)

Lemma math_errors_filter (data : list InvoiceRecord) :
  (data ≫= λ record, check_math (inv_id_of record) record)
  = math_error_of <$> filter (λ record, ¬ arithmetic_ok record) data.
Proof.
  induction data as [|record rest IH]; [done|].
  rewrite bind_cons, filter_cons, IH, check_math_cases.
  destruct (decide (¬ arithmetic_ok record)) as [Hbad|Hok]; unfold arithmetic_ok in *.
  - by destruct (tolerance <? totals_difference record)%float.
  - destruct (tolerance <? totals_difference record)%float; [|done].
    destruct Hok. congruence.
Qed.

(** X10: [math_errors] holds, in the order of the records, one entry for each
    record whose rounded totals are more than [0.01] apart and nothing else; in
    every entry the calculated total is the rounded sum of the three components
    that the entry shows, and it is more than [0.01] away from the recorded
    total that the entry shows. *)
Theorem math_errors_entries (data : list InvoiceRecord) :
  let errors := math_errors (check_records data) in
  errors = math_error_of <$> filter (λ record, ¬ arithmetic_ok record) data
  ∧ err_inv_id <$> errors `sublist_of` inv_id_of <$> data
  ∧ ∀ err, err ∈ errors →
      err_calculated_total err
      = round2 (err_subtotal err + err_tax err + err_shipping err)%float
      ∧ (tolerance <? abs (err_calculated_total err - err_recorded_total err))%float = true.
Proof.
  cbv zeta. rewrite check_records_spec; cbn [math_errors]. rewrite math_errors_filter.
  split; [done|]. split.
  - rewrite <- list_fmap_compose.
    assert (err_inv_id ∘ math_error_of = inv_id_of) as -> by done.
    apply fmap_sublist, sublist_filter.
  - intros err (record & -> & [Hbad _]%list_elem_of_filter)%list_elem_of_fmap.
    split; [done|]. unfold arithmetic_ok in Hbad.
    by destruct (tolerance <? totals_difference record)%float eqn:Hlt.
Qed.

Example small_manifest_math_errors :
  math_errors (check_records small_manifest)
  = [ math_error_of (invoice "INV-2025-0007" 100 20 5 130) ].
Proof. vm_compute. reflexivity. Qed.

(** ** The keys of the frequency maps *)

Lemma occurrences_fmap `{EqDecision B} {A} (f : A → B) (k : B) (l : list A) :
  occurrences k (f <$> l) = length (filter (λ x, f x = k) l).
Proof.
  induction l as [|x l IH]; [done|].
  rewrite fmap_cons, occurrences_cons, filter_cons, IH.
  destruct (decide (k = f x)) as [->|Hne].
  - by rewrite decide_True by done.
  - by rewrite decide_False by congruence.
Qed.

Lemma counts_dom (keys : list string) : dom (counts keys) = list_to_set keys.
Proof.
  apply set_eq. intros k. rewrite elem_of_dom, elem_of_list_to_set, counts_lookup.
  case_decide; split; (done || by intros [? ?] || by eexists).
Qed.

Lemma counts_size (keys : list string) : size (counts keys) ≤ length keys.
Proof.
  rewrite <- size_dom, counts_dom. pose proof (repeats_length ∅ keys) as Hlen.
  rewrite (left_id_L ∅ (∪)), size_empty in Hlen. lia.
Qed.

Lemma counts_lookup_Some (keys : list string) (k : string) (n : nat) :
  counts keys !! k = Some n ↔ n = occurrences k keys ∧ 1 ≤ n.
Proof.
  rewrite counts_lookup. destruct (decide (k ∈ keys)) as [Hin|Hin].
  - apply occurrences_pos in Hin. split; [intros [= <-]; lia|by intros [-> _]].
  - rewrite (occurrences_not_elem _ _ Hin). split; [done|]. intros [-> ?]. lia.
Qed.

Lemma length_filter_default (field : InvoiceRecord → option string) (d : string)
    (data : list InvoiceRecord) :
  length (filter (λ record, default d (field record) = d) data)
  = length (filter (λ record, field record = None) data)
    + length (filter (λ record, field record = Some d) data).
Proof.
  induction data as [|record rest IH]; [done|]. rewrite !filter_cons.
  destruct (field record) as [v|] eqn:Hfield; simpl;
    repeat case_decide; simplify_eq/=; lia.
Qed.

(** X11: the keys of [vendors] are the vendor values that occur in the
    manifest, each mapped to the number of records with that value, never to 0,
    so the map has at most [total_records] keys; and likewise [currencies].  A
    record without the key and a record whose value is the string
    ["Unknown"] are counted together under ["Unknown"]. *)
Theorem statistics_keys (data : list InvoiceRecord) :
  let currencies := (statistics data).1 in
  let vendors := (statistics data).2 in
  dom currencies = list_to_set (currency_of <$> data)
  ∧ dom vendors = list_to_set (vendor_of <$> data)
  ∧ (∀ k n, currencies !! k = Some n ↔
            n = length (filter (λ record, currency_of record = k) data) ∧ 1 ≤ n)
  ∧ (∀ k n, vendors !! k = Some n ↔
            n = length (filter (λ record, vendor_of record = k) data) ∧ 1 ≤ n)
  ∧ size currencies ≤ length data
  ∧ size vendors ≤ length data
  ∧ default 0 (vendors !! "Unknown")
    = length (filter (λ record, vendor record = None) data)
      + length (filter (λ record, vendor record = Some "Unknown") data)
  ∧ default 0 (currencies !! "Unknown")
    = length (filter (λ record, currency record = None) data)
      + length (filter (λ record, currency record = Some "Unknown") data).
Proof.
  cbv zeta. rewrite statistics_counts. cbn [fst snd].
  split; [apply counts_dom|]. split; [apply counts_dom|].
  split; [|split].
  - intros k n. by rewrite counts_lookup_Some, occurrences_fmap.
  - intros k n. by rewrite counts_lookup_Some, occurrences_fmap.
  - split; [by rewrite <- (length_fmap currency_of data); apply counts_size|].
    split; [by rewrite <- (length_fmap vendor_of data); apply counts_size|].
    rewrite !counts_lookup_default, !occurrences_fmap.
    split; apply length_filter_default.
Qed.

(** ** How often a run calls [print] *)

Lemma section_lines_length {A} (label : string) (line : A → Line) (errs : list A) :
  2 ≤ length (section_lines label line errs) ≤ 13.
Proof.
  unfold section_lines. rewrite !length_app. cbn [length].
  destruct (truthy errs); [|cbn [length]; lia].
  rewrite length_app, length_fmap, length_take.
  case_decide; cbn [length]; lia.
Qed.

Lemma results_lines_length (out : Outcome) : 15 ≤ length (results_lines out) ≤ 59.
Proof.
  unfold results_lines. rewrite !length_app. cbn [length].
  pose proof (section_lines_length "Missing fields" MissingLine
                (missing_fields (checks out))).
  pose proof (section_lines_length "Duplicate IDs" DuplicateLine
                (duplicate_ids (checks out))).
  pose proof (section_lines_length "Math errors (subtotal+tax+shipping != total)"
                MathLine (math_errors (checks out))).
  pose proof (section_lines_length "Sequence gaps" GapLine (sequence_gaps out)).
  lia.
Qed.

(** X12: whatever the size of the manifest, a run calls [print] at least 2 and
    at most 61 times, the first call printing the number of records; a run that
    returns calls it at least 17 times.  (The number of console lines can be
    larger: a call whose interpolated invoice ID contains line breaks writes
    several.) *)
Theorem console_output_bounded (w : World) :
  let run := validate_manifest_io w in
  ∃ lines,
    console run.2 = console w ++ lines
    ∧ 2 ≤ length lines ≤ 61
    ∧ lines !! 0 = Some (Count "Total records" (length (manifest w)))
    ∧ (returns run.1 → 17 ≤ length lines).
Proof.
  cbv zeta. unfold validate_manifest_io.
  destruct (validate_manifest_run (manifest w)) as [out|e]; cbn [fst snd print console].
  - exists ([Count "Total records" (length (manifest w)); Blank] ++ results_lines out).
    pose proof (results_lines_length out).
    split; [by rewrite app_assoc|]. rewrite length_app. cbn [length].
    split; [lia|]. split; [reflexivity|]. intros _. lia.
  - exists [Count "Total records" (length (manifest w)); Blank].
    cbn [length]. split; [done|]. split; [lia|]. split; [reflexivity|].
    by intros [? ?].
Qed.

(** X13: when a record lacks the key [invoice_id], the run raises after printing
    only the number of records and a blank line: the first loop has recorded at
    least one missing field by then, but no diagnostic is printed. *)
Theorem raising_run_prints_no_diagnostic (w : World) :
  ¬ ids_present (manifest w) →
  validate_manifest_io w
  = (Raise (KeyError "invoice_id"),
     print [ Count "Total records" (length (manifest w)); Blank ] w)
  ∧ missing_fields (check_records (manifest w)) ≠ [].
Proof.
  intros Hids. split.
  - unfold validate_manifest_io. by rewrite validate_manifest_run_Raise.
  - rewrite check_records_spec; cbn [missing_fields]. rewrite missing_rows_nil.
    intros Hall. by apply Hids, has_all_fields_ids_present.
Qed.

Lemma raising_run_prints_no_diagnostic_witness :
  let w := {| manifest := [ without_invoice_id (invoice "INV-2025-0001" 100 20 5 125) ];
              console := [] |} in
  validate_manifest_io w
  = (Raise (KeyError "invoice_id"),
     {| manifest := manifest w; console := [ Count "Total records" 1; Blank ] |})
  ∧ missing_fields (check_records (manifest w)) ≠ [].
Proof.
  apply (raising_run_prints_no_diagnostic
           {| manifest := [ without_invoice_id (invoice "INV-2025-0001" 100 20 5 125) ];
              console := [] |}).
  intros Hids. apply Forall_cons in Hids as [[? Hid] _]. discriminate Hid.
Defined.

(** ** The exit status of the script *)




